(** * Order lifecycle and payment reconciliation of the digital product store

    A shallow embedding of the order workflow of the server
    ([src/controllers/orderController.ts], [src/controllers/webhookController.ts])
    together with the helpers it calls ([utils/response], [utils/errors],
    [services/emailService], [config/env]), the routes of the orders with
    their middleware ([routes/orders], [middleware/auth],
    [utils/validation]), the slug of a category
    ([controllers/categoryController.ts]) and the origin decision of the
    CORS options ([config/cors.ts]).

    - JavaScript numbers are IEEE binary64 values: prices and amounts are
      primitive floats; the integer columns of the database ([stock],
      [quantity]) are integers.
    - The database reached through Prisma is a pair of tables keyed by
      primary key; the items of an order are stored with their order.
    - A handler is a computation over a [World] (tables and the trace of
      external effects) that ends in a value or a thrown exception. *)

From Stdlib Require Import ZArith PrimFloat FloatOps SpecFloat Uint63 Ascii.
From stdpp Require Import gmap strings list fin_maps pretty.

Local Open Scope string_scope.
Local Open Scope Z_scope.
Local Open Scope list_scope.

(** ** JavaScript numbers *)

Module Number.

(** An integer read as a JavaScript number.  The conversion is exact for
    magnitudes below 2^53, which covers every 32-bit database integer. *)
Definition of_Z (z : Z) : float :=
  if z <? 0 then PrimFloat.opp (PrimFloat.of_uint63 (Uint63.of_Z (- z)))
  else PrimFloat.of_uint63 (Uint63.of_Z z).

(** The integer [floor (±m·2^e + 1/2)] for [e < 0]. *)
Definition round_half_up (neg : bool) (m : positive) (e : Z) : Z :=
  ((if neg then - Z.pos m else Z.pos m) * 2 + 2 ^ (- e)) / 2 ^ (1 - e).

(** [Math.round]: the nearest integer, ties towards +∞; NaN, the
    infinities and the zeros are returned as they are, and a negative
    argument that rounds to zero gives -0. *)
Definition Math_round (x : float) : float :=
  match Prim2SF x with
  | S754_finite neg m e =>
      if 0 <=? e then x
      else
        let n := round_half_up neg m e in
        if n =? 0 then (if neg then PrimFloat.opp PrimFloat.zero else PrimFloat.zero)
        else of_Z n
  | _ => x
  end.

End Number.

(** ** Data model *)

Inductive OrderStatus := PENDING | PAID | FAILED | CANCELLED.

Global Instance OrderStatus_eq_dec : EqDecision OrderStatus.
Proof. solve_decision. Defined.

(** A row of [products]; its identifier is the key of the table. *)
Record Product := mkProduct {
  name : string;
  description : option string;
  price : float;
  imageUrl : option string;
  stock : Z;
  categoryId : option string;
}.

(** A row of [order_items]: the product it references, the unit price
    copied at creation and the ordered quantity. *)
Record OrderItem := mkOrderItem {
  productId : string;
  item_price : float;
  quantity : Z;
}.

(** A row of [orders] with its items; its identifier is the key of the table. *)
Record Order := mkOrder {
  customerEmail : string;
  totalAmount : float;
  status : OrderStatus;
  stripePaymentIntentId : option string;
  items : list OrderItem;
}.

Definition set_stock (s : Z) (p : Product) : Product :=
  mkProduct (name p) (description p) (price p) (imageUrl p) s (categoryId p).

Definition set_price (x : float) (p : Product) : Product :=
  mkProduct (name p) (description p) x (imageUrl p) (stock p) (categoryId p).

Definition set_status (s : OrderStatus) (o : Order) : Order :=
  mkOrder (customerEmail o) (totalAmount o) s (stripePaymentIntentId o) (items o).

Definition set_intent (pi : string) (o : Order) : Order :=
  mkOrder (customerEmail o) (totalAmount o) (status o) (Some pi) (items o).

(** An order as the queries with
    [include: { items: { include: { product: true } } }] return it: the row,
    its identifier and, for every item, the product row read at that moment. *)
Record OrderView := mkOrderView {
  ov_id : string;
  ov_order : Order;
  ov_products : list (option Product);
}.

(** ** Exceptions, external effects and the world *)

Inductive Exn :=
| AppError (message : string) (statusCode : Z)
| PrismaError (code : string)
| StripeError (message : string)
| JsError (message : string).

Inductive LogLevel := LError | LWarn | LInfo.

(** Parameters of [stripe.paymentIntents.create]. *)
Record PaymentIntentParams := mkParams {
  amount : float;
  currency : string;
  meta_orderId : string;
  meta_customerEmail : string;
}.

Record PaymentIntent := mkIntent {
  intent_id : string;
  client_secret : string;
}.

(** The options handed to [transporter.sendMail]; the HTML body is left out. *)
Record Mail := mkMail {
  mail_to : string;
  mail_subject : string;
  mail_order : OrderView;
}.

Inductive Effect :=
| Log (level : LogLevel) (message : string)
| StripeCreate (params : PaymentIntentParams)
| MailAttempt (mail : Mail) (delivered : bool).

Record World := mkWorld {
  products : gmap string Product;
  orders : gmap string Order;
  trace : list Effect;
}.

(** The event [stripe.webhooks.constructEvent] returns. *)
Record Event := mkEvent {
  ev_type : string;
  ev_id : string;
  ev_object_id : string;
  ev_metadata : option (gmap string string);
}.

(** Configuration and collaborators: the environment variable of
    [config/env.ts], the Stripe client, the SMTP transport and the
    identifier the database gives to a new order. *)
Record Env := mkEnv {
  STRIPE_WEBHOOK_SECRET : string;
  constructEvent : string → string → string → string + Event;
  paymentIntents_create : PaymentIntentParams → Exn + PaymentIntent;
  sendMail : Mail → option Exn;
  uuid : string;
}.

(** ** Computations *)

Definition M (A : Type) : Type := World → (Exn + A) * World.

Definition ret {A} (a : A) : M A := λ w, (inr a, w).

Definition throw {A} (e : Exn) : M A := λ w, (inl e, w).

Definition bind {A B} (m : M A) (k : A → M B) : M B :=
  λ w, match m w with
       | (inl e, w') => (inl e, w')
       | (inr a, w') => k a w'
       end.

(** [try { m } catch (e) { h e }] *)
Definition try_catch {A} (m : M A) (h : Exn → M A) : M A :=
  λ w, match m w with
       | (inl e, w') => h e w'
       | (inr a, w') => (inr a, w')
       end.

Notation "x <~ m ;; k" := (bind m (λ x, k))
  (at level 100, m at next level, right associativity).
Notation "m ;;; k" := (bind m (λ _, k))
  (at level 100, right associativity).

Definition record (e : Effect) (w : World) : World :=
  mkWorld (products w) (orders w) (trace w ++ [e]).

Definition emit (e : Effect) : M unit := λ w, (inr tt, record e w).

(** [for (const x of xs) { f x }] *)
Fixpoint for_of {A} (xs : list A) (f : A → M unit) : M unit :=
  match xs with
  | [] => ret tt
  | x :: rest => f x ;;; for_of rest f
  end.

(** The logger of [utils/logger.ts], by level and message. *)
Module logger.
Definition error (message : string) : M unit := emit (Log LError message).
Definition warn (message : string) : M unit := emit (Log LWarn message).
Definition info (message : string) : M unit := emit (Log LInfo message).
End logger.

(** Every item references a product of the table (the foreign key of
    [order_items]). *)
Definition items_resolve (ps : gmap string Product) (its : list OrderItem) : bool :=
  forallb (λ it, bool_decide (is_Some (ps !! productId it))) its.

Global Arguments items_resolve : simpl never.

(** ** Prisma queries *)

Module prisma.

(** [prisma.product.findMany({ where: { id: { in: ids } } })]: the rows of
    the table whose key is among [ids], each once, in table order. *)
Definition rows_in (ps : gmap string Product) (ids : list string) : list (string * Product) :=
  filter (λ kv : string * Product, kv.1 ∈ ids) (map_to_list ps).

Definition product_findMany (ids : list string) : M (list (string * Product)) :=
  λ w, (inr (rows_in (products w) ids), w).

(** [prisma.product.findUnique({ where: { id } })] *)
Definition product_findUnique (id : string) : M (option Product) :=
  λ w, (inr (products w !! id), w).

(** [prisma.product.update({ where: { id }, data })]; a missing record
    makes Prisma throw its known-request error P2025. *)
Definition product_update (id : string) (f : Product → Product) : M Product :=
  λ w, match products w !! id with
       | None => (inl (PrismaError "P2025"), w)
       | Some p => (inr (f p), mkWorld (<[id := f p]> (products w)) (orders w) (trace w))
       end.

(** The joined products of [include: { items: { include: { product: true } } }]. *)
Definition include_items (id : string) (o : Order) (w : World) : OrderView :=
  mkOrderView id o (map (λ it, products w !! productId it) (items o)).

(** [prisma.order.findUnique({ where: { id }, include })] *)
Definition order_findUnique (id : string) : M (option OrderView) :=
  λ w, (inr ((λ o, include_items id o w) <$> orders w !! id), w).

(** [prisma.order.update({ where: { id }, data, include })] *)
Definition order_update (id : string) (f : Order → Order) : M OrderView :=
  λ w, match orders w !! id with
       | None => (inl (PrismaError "P2025"), w)
       | Some o =>
           let w' := mkWorld (products w) (<[id := f o]> (orders w)) (trace w) in
           (inr (include_items id (f o) w'), w')
       end.

(** [prisma.order.create({ data, include })]: the order and its items are
    written together, under the identifier [id] the database generates; a
    key that is taken violates the primary key (P2002), an item whose
    product is missing violates the foreign key (P2003). *)
Definition order_create (id : string) (o : Order) : M OrderView :=
  λ w, match orders w !! id with
       | Some _ => (inl (PrismaError "P2002"), w)
       | None =>
           if items_resolve (products w) (items o)
           then
             let w' := mkWorld (products w) (<[id := o]> (orders w)) (trace w) in
             (inr (include_items id o w'), w')
           else (inl (PrismaError "P2003"), w)
       end.

End prisma.

(** ** The response envelope of [utils/response.ts] *)

Inductive Data :=
| DNone
| DReceived
| DOrder (order : OrderView)
| DPayment (order : OrderView) (clientSecret : string).

Record Response := mkResponse {
  res_status : Z;
  res_success : bool;
  res_message : string;
  res_data : Data;
}.

Definition sendSuccess (data : Data) (message : string) (statusCode : Z) : Response :=
  mkResponse statusCode true message data.

Definition sendError (message : string) (statusCode : Z) : Response :=
  mkResponse statusCode false message DNone.

(** A handler is [try { body } catch (error) { h error }] where the catch
    clause itself cannot throw: it runs to a response. *)
Definition try_handler (body : M Response) (h : Exn → World → Response * World)
  (w : World) : Response * World :=
  match body w with
  | (inr r, w') => (r, w')
  | (inl e, w') => h e w'
  end.

(** The [catch] clause the order handlers share: the error is logged, an
    [AppError] is answered with its own message and status, anything else
    with [fallback] and 500. *)
Definition catch_AppError (where_ fallback : string) (e : Exn) (w : World)
  : Response * World :=
  (match e with
   | AppError message statusCode => sendError message statusCode
   | _ => sendError fallback 500
   end, record (Log LError where_) w).

(** JavaScript truthiness of an optional string: present and not empty. *)
Definition truthy (s : option string) : bool :=
  match s with
  | Some s => negb (String.eqb s "")
  | None => false
  end.

(** ** [services/emailService.ts] *)

(** Rendering the item rows reads [item.product.name], which throws a
    [TypeError] on a missing product; then the mail is handed to the
    transport, whose failure is rethrown. *)
Definition sendOrderConfirmationEmail (env : Env)
  (customerEmail orderId : string) (orderDetails : OrderView) : M unit :=
  if forallb (λ p : option Product, bool_decide (is_Some p)) (ov_products orderDetails)
  then
    let mailOptions :=
      mkMail customerEmail
             ("Order Confirmation - Order #" +:+ String.substring 0 8 orderId)
             orderDetails in
    match sendMail env mailOptions with
    | None => emit (MailAttempt mailOptions true)
    | Some e => emit (MailAttempt mailOptions false) ;;; throw e
    end
  else throw (JsError "Cannot read properties of null (reading 'name')").

(** ** [controllers/orderController.ts] *)

Record ItemRequest := mkItemRequest {
  req_productId : string;
  req_quantity : Z;
}.

Record CreateOrderBody := mkCreateOrderBody {
  body_items : list ItemRequest;
  body_customerEmail : string;
}.

(** The callback of [items.map] in [createOrder], threaded through the
    list with the running [totalAmount]: the product is looked up among
    the fetched rows, the stock is compared with the requested quantity,
    the price is copied and the item total added. *)
Fixpoint orderItemsData (found : list (string * Product)) (items : list ItemRequest)
  (totalAmount : float) : Exn + (list OrderItem * float) :=
  match items with
  | [] => inr ([], totalAmount)
  | item :: rest =>
      match find (λ p : string * Product, String.eqb p.1 (req_productId item)) found with
      | None => inl (AppError ("Product " +:+ req_productId item +:+ " not found") 404)
      | Some (_, product) =>
          if stock product <? req_quantity item then
            inl (AppError ("Insufficient stock for " +:+ name product
                           +:+ ". Available: " +:+ pretty (stock product)
                           +:+ ", Requested: " +:+ pretty (req_quantity item)) 400)
          else
            let itemTotal := PrimFloat.mul (price product) (Number.of_Z (req_quantity item)) in
            match orderItemsData found rest (PrimFloat.add totalAmount itemTotal) with
            | inl e => inl e
            | inr (data, total) =>
                inr (mkOrderItem (req_productId item) (price product) (req_quantity item) :: data,
                     total)
            end
      end
  end.

Definition createOrder_body (env : Env) (body : CreateOrderBody) : M Response :=
  let productIds := map req_productId (body_items body) in
  found <~ prisma.product_findMany productIds ;;
  if negb (length found =? length productIds)%nat then
    throw (AppError "One or more products not found" 404)
  else
    match orderItemsData found (body_items body) PrimFloat.zero with
    | inl e => throw e
    | inr (data, totalAmount) =>
        order <~ prisma.order_create (uuid env)
                   (mkOrder (body_customerEmail body) totalAmount PENDING None data) ;;
        ret (sendSuccess (DOrder order) "Order created successfully" 201)
    end.

Definition createOrder (env : Env) (body : CreateOrderBody) : World → Response * World :=
  try_handler (createOrder_body env body)
              (catch_AppError "Error in createOrder" "Failed to create order").

Definition createPaymentIntent_body (env : Env) (id : string) : M Response :=
  found <~ prisma.order_findUnique id ;;
  match found with
  | None => throw (AppError "Order not found" 404)
  | Some order =>
      if negb (bool_decide (status (ov_order order) = PENDING)) then
        throw (AppError "Order is not in pending status" 400)
      else
        let amountInCents :=
          Number.Math_round (PrimFloat.mul (totalAmount (ov_order order)) 100%float) in
        let params :=
          mkParams amountInCents "usd" id (customerEmail (ov_order order)) in
        emit (StripeCreate params) ;;;
        match paymentIntents_create env params with
        | inl e => throw e
        | inr paymentIntent =>
            updatedOrder <~ prisma.order_update id (set_intent (intent_id paymentIntent)) ;;
            ret (sendSuccess (DPayment updatedOrder (client_secret paymentIntent))
                             "Payment intent created successfully" 200)
        end
  end.

Definition createPaymentIntent (env : Env) (id : string) : World → Response * World :=
  try_handler (createPaymentIntent_body env id)
              (catch_AppError "Error in createPaymentIntent" "Failed to create payment intent").

Definition validStatuses : list string := ["PENDING"; "PAID"; "FAILED"; "CANCELLED"].

(** The value of the [OrderStatus] enumeration a status string denotes. *)
Definition status_of_string (s : string) : option OrderStatus :=
  if String.eqb s "PENDING" then Some PENDING
  else if String.eqb s "PAID" then Some PAID
  else if String.eqb s "FAILED" then Some FAILED
  else if String.eqb s "CANCELLED" then Some CANCELLED
  else None.

(** [stock: { decrement: n }] *)
Definition decrement (n : Z) (p : Product) : Product := set_stock (stock p - n) p.

Definition updateOrderStatus_body (env : Env) (id status_ : string) : M Response :=
  found <~ prisma.order_findUnique id ;;
  match found with
  | None => throw (AppError "Order not found" 404)
  | Some order =>
      if negb (bool_decide (status_ ∈ validStatuses)) then
        throw (AppError ("Invalid status. Must be one of: "
                         +:+ String.concat ", " validStatuses) 400)
      else
        match status_of_string status_ with
        | None => throw (PrismaError "PrismaClientValidationError")
        | Some st =>
            updatedOrder <~ prisma.order_update id (set_status st) ;;
            (if bool_decide (st = PAID) && negb (bool_decide (status (ov_order order) = PAID))
             then
               for_of (items (ov_order order)) (λ item,
                 try_catch
                   (prisma.product_update (productId item) (decrement (quantity item)) ;;; ret tt)
                   (λ stockError,
                      logger.error ("Failed to update stock for product " +:+ productId item))) ;;;
               try_catch
                 (sendOrderConfirmationEmail env (customerEmail (ov_order order)) id updatedOrder)
                 (λ emailError, logger.error "Failed to send confirmation email")
             else ret tt) ;;;
            ret (sendSuccess (DOrder updatedOrder) "Order status updated successfully" 200)
        end
  end.

Definition updateOrderStatus (env : Env) (id status_ : string) : World → Response * World :=
  try_handler (updateOrderStatus_body env id status_)
              (catch_AppError "Error in updateOrderStatus" "Failed to update order status").

Definition getOrderById_body (id : string) : M Response :=
  found <~ prisma.order_findUnique id ;;
  match found with
  | None => throw (AppError "Order not found" 404)
  | Some order => ret (sendSuccess (DOrder order) "Order fetched successfully" 200)
  end.

Definition getOrderById (id : string) : World → Response * World :=
  try_handler (getOrderById_body id)
              (catch_AppError "Error in getOrderById" "Failed to fetch order").

(** ** [controllers/webhookController.ts] *)

Record WebhookRequest := mkWebhookRequest {
  stripe_signature : option string;
  raw_body : string;
}.

(** [object.metadata?.orderId] *)
Definition metadata_orderId (event : Event) : option string :=
  ev_metadata event ≫= (λ m, m !! "orderId").

Definition on_payment_succeeded (env : Env) (event : Event) : M unit :=
  let orderId := metadata_orderId event in
  if truthy orderId then
    let orderId := default "" orderId in
    found <~ prisma.order_findUnique orderId ;;
    match found with
    | Some order =>
        if bool_decide (status (ov_order order) = PENDING) then
          updatedOrder <~ prisma.order_update orderId (set_status PAID) ;;
          for_of (items (ov_order order)) (λ item,
            prisma.product_update (productId item) (decrement (quantity item)) ;;; ret tt) ;;;
          try_catch
            (sendOrderConfirmationEmail env (customerEmail (ov_order order)) orderId updatedOrder ;;;
             logger.info ("Order " +:+ orderId +:+ " confirmed and email sent"))
            (λ emailError, logger.error "Failed to send confirmation email")
        else ret tt
    | None => ret tt
    end
  else ret tt.

Definition on_payment_failed (event : Event) : M unit :=
  let failedOrderId := metadata_orderId event in
  if truthy failedOrderId then
    let failedOrderId := default "" failedOrderId in
    prisma.order_update failedOrderId (set_status FAILED) ;;;
    logger.warn ("Order " +:+ failedOrderId +:+ " payment failed")
  else ret tt.

Definition handleStripeWebhook_body (env : Env) (req : WebhookRequest) : M Response :=
  let sig := stripe_signature req in
  if negb (truthy sig) then
    ret (sendError "Missing stripe-signature header" 400)
  else if String.eqb (STRIPE_WEBHOOK_SECRET env) "" then
    throw (JsError "STRIPE_WEBHOOK_SECRET is not set")
  else
    match constructEvent env (raw_body req) (default "" sig) (STRIPE_WEBHOOK_SECRET env) with
    | inl err_message =>
        logger.error "Webhook signature verification failed" ;;;
        ret (sendError ("Webhook Error: " +:+ err_message) 400)
    | inr event =>
        (if String.eqb (ev_type event) "payment_intent.succeeded" then
           on_payment_succeeded env event
         else if String.eqb (ev_type event) "payment_intent.payment_failed" then
           on_payment_failed event
         else
           logger.info ("Unhandled webhook event type: " +:+ ev_type event)) ;;;
        ret (sendSuccess DReceived "Webhook processed successfully" 200)
    end.

Definition handleStripeWebhook (env : Env) (req : WebhookRequest) : World → Response * World :=
  try_handler (handleStripeWebhook_body env req)
              (λ error w, (sendError "Webhook processing failed" 500,
                           record (Log LError "Error in handleStripeWebhook") w)).

(** ** Specification-side definitions *)

(** The total quantity the items [its] order of product [pid]. *)
Definition ordered_quantity (pid : string) (its : list OrderItem) : Z :=
  foldr (λ it acc, if decide (productId it = pid) then quantity it + acc else acc) 0 its.

(** The products table after every item of [its] has been applied to the
    product it references, where that product exists. *)
Definition settle_stock (its : list OrderItem) (ps : gmap string Product)
  : gmap string Product :=
  foldl (λ ps it, alter (decrement (quantity it)) (productId it) ps) ps its.

(** The confirmation mail of order [id] in state [o], joined with the
    products [ps] read when the order was updated. *)
Definition confirmation_mail (id : string) (o : Order) (ps : gmap string Product) : Mail :=
  mkMail (customerEmail o)
         ("Order Confirmation - Order #" +:+ String.substring 0 8 id)
         (mkOrderView id o (map (λ it, ps !! productId it) (items o))).

(** The sum of captured price times quantity, taken from left to right in
    binary64 arithmetic, starting from [acc]. *)
Definition items_total (acc : float) (its : list OrderItem) : float :=
  foldl (λ acc it, PrimFloat.add acc (PrimFloat.mul (item_price it) (Number.of_Z (quantity it))))
        acc its.

(** ** Basic facts *)

(** [round_half_up] is [floor (x + 1/2)] for [x = ±m·2^e] with [e < 0]:
    with [k = 2^(-e)], the result [n] satisfies [n ≤ x + 1/2 < n + 1], here
    multiplied by [2k]. *)
Lemma round_half_up_floor (neg : bool) (m : positive) (e : Z) :
  e < 0 →
  let x := if neg then - Z.pos m else Z.pos m in
  let n := Number.round_half_up neg m e in
  n * (2 * 2 ^ (- e)) ≤ 2 * x + 2 ^ (- e) < (n + 1) * (2 * 2 ^ (- e)).
Proof.
  intros He x n. unfold n, Number.round_half_up. fold x.
  assert (2 ^ (1 - e) = 2 * 2 ^ (- e)) as ->.
  { replace (1 - e) with (Z.succ (- e)) by lia. rewrite Z.pow_succ_r by lia. done. }
  assert (0 < 2 * 2 ^ (- e)) as Hpos by (pose proof (Z.pow_pos_nonneg 2 (- e)); lia).
  pose proof (Z.mul_div_le (x * 2 + 2 ^ (- e)) _ Hpos).
  pose proof (Z.mul_succ_div_gt (x * 2 + 2 ^ (- e)) _ Hpos).
  lia.
Qed.


Lemma decrement_0 p : decrement 0 p = p.
Proof. destruct p. unfold decrement, set_stock. simpl. by rewrite Z.sub_0_r. Qed.

Lemma decrement_decrement a b p : decrement a (decrement b p) = decrement (b + a) p.
Proof. unfold decrement, set_stock. simpl. f_equal. lia. Qed.

Lemma settle_stock_lookup its ps pid :
  settle_stock its ps !! pid = decrement (ordered_quantity pid its) <$> ps !! pid.
Proof.
  revert ps. induction its as [|it its IH]; intros ps; simpl.
  - destruct (ps !! pid) as [p|]; simpl; [by rewrite decrement_0 | done].
  - unfold settle_stock in *. simpl. rewrite IH. rewrite lookup_alter.
    unfold ordered_quantity; simpl; fold (ordered_quantity pid its).
    destruct (decide (productId it = pid)) as [->|Hne]; [|done].
    destruct (ps !! pid) as [p|]; simpl; [by rewrite decrement_decrement | done].
Qed.

Lemma items_resolve_alter f pid ps its :
  items_resolve (alter f pid ps) its = items_resolve ps its.
Proof.
  unfold items_resolve. induction its as [|it its IH]; simpl; [done|].
  rewrite IH. f_equal. apply bool_decide_ext.
  rewrite lookup_alter. case_decide; [subst|done].
  rewrite fmap_is_Some. done.
Qed.

Lemma insert_as_alter (f : Product → Product) pid p (ps : gmap string Product) :
  ps !! pid = Some p → <[pid := f p]> ps = alter f pid ps.
Proof.
  intros Hp. apply map_eq. intros k. rewrite lookup_alter, lookup_insert.
  case_decide; [subst; by rewrite Hp | done].
Qed.

(** The settlement loop of the webhook: with every product present it
    runs to the end and leaves [settle_stock]. *)
Lemma webhook_loop its ps os tr :
  items_resolve ps its = true →
  for_of its (λ item,
    prisma.product_update (productId item) (decrement (quantity item)) ;;; ret tt)
    (mkWorld ps os tr)
  = (inr tt, mkWorld (settle_stock its ps) os tr).
Proof.
  revert ps. induction its as [|it its IH]; intros ps Hres; [done|].
  simpl in Hres. apply andb_prop in Hres as [Hit Hres].
  apply bool_decide_eq_true in Hit as [p Hp].
  simpl. unfold bind at 1. unfold bind at 1. unfold prisma.product_update at 1. simpl.
  rewrite Hp. simpl. rewrite (insert_as_alter _ _ _ _ Hp).
  rewrite IH; [done|]. by rewrite items_resolve_alter.
Qed.

(** The log entries of the admin loop: one per item whose product is missing. *)
Definition stock_failures (ps : gmap string Product) (its : list OrderItem) : list Effect :=
  map (λ it, Log LError ("Failed to update stock for product " +:+ productId it))
      (filter (λ it, ps !! productId it = None) its).

Lemma stock_failures_alter f pid ps its :
  stock_failures (alter f pid ps) its = stock_failures ps its.
Proof.
  unfold stock_failures. f_equal. apply list_filter_iff. intros it.
  rewrite lookup_alter. case_decide; [subst|done].
  by rewrite fmap_None.
Qed.

(** The settlement loop of the admin override: a failed update is logged
    and the loop goes on. *)
Lemma admin_loop its ps os tr :
  for_of its (λ item,
    try_catch
      (prisma.product_update (productId item) (decrement (quantity item)) ;;; ret tt)
      (λ stockError,
         logger.error ("Failed to update stock for product " +:+ productId item)))
    (mkWorld ps os tr)
  = (inr tt, mkWorld (settle_stock its ps) os (tr ++ stock_failures ps its)).
Proof.
  revert ps tr. induction its as [|it its IH]; intros ps tr.
  - simpl. unfold ret, stock_failures. simpl. by rewrite app_nil_r.
  - simpl. unfold bind at 1. unfold try_catch at 1. unfold bind at 1.
    unfold prisma.product_update at 1. simpl.
    destruct (ps !! productId it) as [p|] eqn:Hp; simpl.
    + rewrite (insert_as_alter _ _ _ _ Hp). rewrite IH.
      rewrite stock_failures_alter. unfold stock_failures at 2.
      rewrite filter_cons. rewrite decide_False by congruence. done.
    + unfold logger.error, emit, record. simpl. rewrite IH.
      unfold stock_failures at 2. rewrite filter_cons. rewrite decide_True by done.
      simpl. rewrite <- app_assoc. simpl.
      assert (alter (decrement (quantity it)) (productId it) ps = ps) as ->; [|done].
      apply map_eq. intros k. rewrite lookup_alter. case_decide; [subst; by rewrite Hp|done].
Qed.

(** Runs the effect primitives of a goal. *)
Ltac step_effects :=
  unfold logger.error, logger.warn, logger.info;
  unfold bind, try_catch, emit, throw, ret;
  unfold record; simpl.

(** ** The webhook handler *)

(** The acknowledgement of a processed event. *)
Definition acknowledged : Response :=
  sendSuccess DReceived "Webhook processed successfully" 200.

(** The request carries a signature that [constructEvent] accepts, under a
    configured secret, as [event]. *)
Definition verified (env : Env) (req : WebhookRequest) (event : Event) : Prop :=
  truthy (stripe_signature req) = true ∧
  STRIPE_WEBHOOK_SECRET env ≠ "" ∧
  constructEvent env (raw_body req) (default "" (stripe_signature req))
                 (STRIPE_WEBHOOK_SECRET env) = inr event.

(** A verified request is handled by the branch of its event type. *)
Lemma webhook_verified env req event w :
  verified env req event →
  handleStripeWebhook env req w =
  try_handler
    ((if String.eqb (ev_type event) "payment_intent.succeeded" then
        on_payment_succeeded env event
      else if String.eqb (ev_type event) "payment_intent.payment_failed" then
        on_payment_failed event
      else logger.info ("Unhandled webhook event type: " +:+ ev_type event)) ;;;
     ret acknowledged)
    (λ error w, (sendError "Webhook processing failed" 500,
                 record (Log LError "Error in handleStripeWebhook") w)) w.
Proof.
  intros (Hsig & Hsecret & Hev).
  unfold handleStripeWebhook, handleStripeWebhook_body, try_handler.
  rewrite Hsig. simpl. apply String.eqb_neq in Hsecret. rewrite Hsecret, Hev. done.
Qed.

Lemma truthy_Some s : s ≠ "" → truthy (Some s) = true.
Proof. intros H. simpl. apply String.eqb_neq in H. by rewrite H. Qed.

Lemma truthy_inv o : truthy o = true → ∃ s, o = Some s ∧ s ≠ "".
Proof.
  destruct o as [s|]; simpl; [|done]. intros H. exists s. split; [done|].
  apply String.eqb_neq. by destruct (String.eqb s "").
Qed.

(** The effects of the attempt to confirm by mail in the webhook: the
    attempt itself and the log entry of its outcome. *)
Definition webhook_mail_trace (env : Env) (oid : string) (mail : Mail) : list Effect :=
  match sendMail env mail with
  | None => [MailAttempt mail true;
             Log LInfo ("Order " +:+ oid +:+ " confirmed and email sent")]
  | Some _ => [MailAttempt mail false; Log LError "Failed to send confirmation email"]
  end.

Lemma forallb_resolved (ps : gmap string Product) its :
  items_resolve ps its = true →
  forallb (λ p : option Product, bool_decide (is_Some p))
          (map (λ it, ps !! productId it) its) = true.
Proof.
  unfold items_resolve. induction its as [|it its IH]; simpl; [done|].
  intros [H1 H2]%andb_prop. rewrite H1. simpl. by apply IH.
Qed.

(** *** A concrete store, used to instantiate the theorems *)

Module demo.

Definition widget : Product := mkProduct "Widget" None 10%float None 5 None.
Definition gadget : Product := mkProduct "Gadget" None 2.5%float None 1 None.

Definition pending_order : Order :=
  mkOrder "buyer@example.com" 20%float PENDING None [mkOrderItem "prod-a" 10%float 2].

Definition paid_order : Order := set_status PAID pending_order.

Definition store : World :=
  mkWorld (<["prod-a" := widget]> (<["prod-b" := gadget]> ∅))
          (<["order-1" := pending_order]> (<["order-2" := paid_order]> ∅))
          [].

Definition event_for (kind orderId : string) : Event :=
  mkEvent kind "evt_1" "pi_1" (Some {["orderId" := orderId]}).

(** A processor that accepts the signature ["valid"] and reads the event
    kind and order identifier off the body. *)
Definition construct (body sig secret : string) : string + Event :=
  if String.eqb sig "valid" then
    if String.eqb body "succeeded order-1" then
      inr (event_for "payment_intent.succeeded" "order-1")
    else if String.eqb body "succeeded order-2" then
      inr (event_for "payment_intent.succeeded" "order-2")
    else if String.eqb body "failed order-2" then
      inr (event_for "payment_intent.payment_failed" "order-2")
    else if String.eqb body "failed order-9" then
      inr (event_for "payment_intent.payment_failed" "order-9")
    else inr (mkEvent "charge.refunded" "evt_2" "ch_1" None)
  else inl "No signatures found matching the expected signature for payload".

Definition env : Env :=
  mkEnv "whsec_test" construct
        (λ _, inr (mkIntent "pi_1" "pi_1_secret"))
        (λ _, Some (JsError "connect ECONNREFUSED"))
        "order-3".

Definition request (body : string) : WebhookRequest := mkWebhookRequest (Some "valid") body.

End demo.

(** C2: a verified [payment_intent.succeeded] event whose metadata carries
    no order identifier, or one that matches no order, or one whose order
    is not PENDING, changes nothing: the tables and the trace (no mail, no
    log entry) are as before and the handler acknowledges with success. *)
Theorem webhook_succeeded_noop env req event w :
  verified env req event →
  ev_type event = "payment_intent.succeeded" →
  truthy (metadata_orderId event) = false ∨
  (∃ oid, metadata_orderId event = Some oid ∧
          (orders w !! oid = None ∨
           ∃ o, orders w !! oid = Some o ∧ status o ≠ PENDING)) →
  handleStripeWebhook env req w = (acknowledged, w).
Proof.
  intros Hver Hty Hcase.
  rewrite (webhook_verified _ _ _ _ Hver), Hty. simpl.
  unfold try_handler, bind at 1, on_payment_succeeded.
  destruct (truthy (metadata_orderId event)) eqn:Htr; [|done].
  destruct Hcase as [?|(oid & Hmeta & Hcase)]; [done|].
  rewrite Hmeta. simpl.
  unfold bind at 1. unfold prisma.order_findUnique at 1.
  destruct Hcase as [Hnone|(o & Ho & Hst)].
  - by rewrite Hnone.
  - rewrite Ho. simpl. by rewrite bool_decide_eq_false_2.
Qed.

Lemma webhook_succeeded_noop_witness :
  handleStripeWebhook demo.env (demo.request "succeeded order-2") demo.store
  = (acknowledged, demo.store).
Proof.
  apply (webhook_succeeded_noop demo.env (demo.request "succeeded order-2")
           (demo.event_for "payment_intent.succeeded" "order-2") demo.store).
  - split; [reflexivity | split; [discriminate | reflexivity]].
  - reflexivity.
  - right. exists "order-2". split; [reflexivity|].
    right. exists demo.paid_order. split; [vm_compute; reflexivity | discriminate].
Defined.

(** C8: a webhook request without a signature header, or with one that
    [constructEvent] rejects under the configured secret, is answered with
    400 and leaves the orders and the products as they were. *)
Theorem webhook_bad_signature_rejected env req w :
  truthy (stripe_signature req) = false ∨
  (STRIPE_WEBHOOK_SECRET env ≠ "" ∧
   ∃ msg, constructEvent env (raw_body req) (default "" (stripe_signature req))
                         (STRIPE_WEBHOOK_SECRET env) = inl msg) →
  ∃ resp w',
    handleStripeWebhook env req w = (resp, w') ∧
    res_status resp = 400 ∧ res_success resp = false ∧
    products w' = products w ∧ orders w' = orders w.
Proof.
  unfold handleStripeWebhook, handleStripeWebhook_body, try_handler.
  intros [Hsig|(Hsecret & msg & Hmsg)].
  - rewrite Hsig. simpl. by eexists _, _.
  - destruct (truthy (stripe_signature req)); simpl; [|by eexists _, _].
    apply String.eqb_neq in Hsecret. rewrite Hsecret, Hmsg.
    step_effects. by eexists _, _.
Qed.

Lemma webhook_bad_signature_rejected_witness :
  ∃ resp w',
    handleStripeWebhook demo.env (mkWebhookRequest (Some "forged") "succeeded order-1")
                        demo.store = (resp, w') ∧
    res_status resp = 400 ∧ res_success resp = false ∧
    products w' = products demo.store ∧ orders w' = orders demo.store.
Proof.
  apply (webhook_bad_signature_rejected demo.env
           (mkWebhookRequest (Some "forged") "succeeded order-1") demo.store).
  right. split; [discriminate|]. eexists. reflexivity.
Defined.




(** C3 (fails on the code): a [payment_intent.payment_failed] event that
    names an order in PAID status moves it to FAILED. *)
Theorem webhook_failed_overwrites_paid :
  orders demo.store !! "order-2" = Some demo.paid_order ∧
  status demo.paid_order = PAID ∧
  ∃ w', handleStripeWebhook demo.env (demo.request "failed order-2") demo.store
        = (acknowledged, w') ∧
        status <$> orders w' !! "order-2" = Some FAILED.
Proof.
  split; [vm_compute; reflexivity|]. split; [reflexivity|].
  eexists. split; [vm_compute; reflexivity|]. vm_compute; reflexivity.
Qed.

(** ** Order creation *)

Section find_many.
Context (ps : gmap string Product) (ids : list string).

Lemma rows_in_elem k p :
  (k, p) ∈ prisma.rows_in ps ids ↔ k ∈ ids ∧ ps !! k = Some p.
Proof.
  unfold prisma.rows_in. rewrite list_elem_of_filter, elem_of_map_to_list. done.
Qed.

Lemma rows_in_keys k :
  k ∈ (prisma.rows_in ps ids).*1 ↔ k ∈ ids ∧ is_Some (ps !! k).
Proof.
  rewrite list_elem_of_fmap. split.
  - intros ([k' p] & -> & Hin). apply rows_in_elem in Hin as [??]. eauto.
  - intros [Hin [p Hp]]. exists (k, p). split; [done|]. by apply rows_in_elem.
Qed.

Lemma rows_in_NoDup : NoDup (prisma.rows_in ps ids).*1.
Proof.
  unfold prisma.rows_in. eapply sublist_NoDup; [apply (NoDup_fst_map_to_list ps)|].
  apply fmap_sublist, sublist_filter.
Qed.

(** [products.find((p) => p.id === id)] on the fetched rows is the lookup
    of [id] in the table, for an [id] that was asked for. *)
Lemma find_rows_in id :
  id ∈ ids →
  find (λ p : string * Product, String.eqb p.1 id) (prisma.rows_in ps ids)
  = (λ p, (id, p)) <$> ps !! id.
Proof.
  intros Hid.
  destruct (find _ _) as [[k p]|] eqn:Hfind.
  - apply find_some in Hfind as [Hin Heq]. simpl in Heq.
    apply String.eqb_eq in Heq as ->.
    apply list_elem_of_In, rows_in_elem in Hin as [_ ->]. done.
  - destruct (ps !! id) as [p|] eqn:Hp; [|done].
    assert ((id, p) ∈ prisma.rows_in ps ids) as Hin by by apply rows_in_elem.
    apply list_elem_of_In in Hin.
    apply (find_none _ _ Hfind) in Hin. simpl in Hin.
    by rewrite String.eqb_refl in Hin.
Qed.

(** Asking for distinct identifiers that all exist returns as many rows. *)
Lemma rows_in_length_all :
  NoDup ids → (∀ id, id ∈ ids → is_Some (ps !! id)) →
  length (prisma.rows_in ps ids) = length ids.
Proof.
  intros Hnd Hall. rewrite <- (length_fmap fst).
  apply Permutation_length, NoDup_Permutation; [apply rows_in_NoDup | done |].
  intros k. rewrite rows_in_keys. split; [tauto | eauto].
Qed.

(** As many rows as identifiers asked for means that every identifier exists. *)
Lemma rows_in_length_inv :
  length (prisma.rows_in ps ids) = length ids →
  NoDup ids ∧ ∀ id, id ∈ ids → is_Some (ps !! id).
Proof.
  intros Hlen. rewrite <- (length_fmap fst) in Hlen.
  assert ((prisma.rows_in ps ids).*1 ≡ₚ ids) as Hperm.
  { apply submseteq_length_Permutation; [|lia].
    apply NoDup_submseteq; [apply rows_in_NoDup|].
    intros k. rewrite rows_in_keys. tauto. }
  split.
  - rewrite <- Hperm. apply rows_in_NoDup.
  - intros id Hid. rewrite <- Hperm in Hid. by apply rows_in_keys in Hid as [_ ?].
Qed.

End find_many.

(** The item [it] stored for the request [req]: same product and quantity,
    and the price of that product in the table [ps]. *)
Definition captures (ps : gmap string Product) (req : ItemRequest) (it : OrderItem) : Prop :=
  productId it = req_productId req ∧
  quantity it = req_quantity req ∧
  ∃ p, ps !! req_productId req = Some p ∧ item_price it = price p.

Definition insufficient_stock (p : Product) (requested : Z) : Exn :=
  AppError ("Insufficient stock for " +:+ name p
            +:+ ". Available: " +:+ pretty (stock p)
            +:+ ", Requested: " +:+ pretty requested) 400.

Lemma orderItemsData_error found reqs acc e :
  orderItemsData found reqs acc = inl e →
  ∃ msg code, e = AppError msg code ∧ (code = 404 ∨ code = 400).
Proof.
  revert acc. induction reqs as [|req reqs IH]; intros acc; simpl; [done|].
  destruct (find _ found) as [[k p]|]; [|intros [= <-]; eauto].
  destruct (stock p <? req_quantity req); [intros [= <-]; eauto|].
  destruct (orderItemsData found reqs _) as [e'|[data total]] eqn:Hrest; [|done].
  intros [= <-]. by eapply IH.
Qed.

Lemma orderItemsData_ok ps ids reqs acc data total :
  (∀ req, req ∈ reqs → req_productId req ∈ ids) →
  orderItemsData (prisma.rows_in ps ids) reqs acc = inr (data, total) →
  Forall2 (captures ps) reqs data ∧ total = items_total acc data.
Proof.
  revert acc data. induction reqs as [|req reqs IH]; intros acc data Hids; simpl.
  - intros [= <- <-]. by split; [constructor|].
  - rewrite find_rows_in by (apply Hids; left).
    destruct (ps !! req_productId req) as [p|] eqn:Hp; simpl; [|done].
    destruct (stock p <? req_quantity req); [done|].
    destruct (orderItemsData _ reqs _) as [e'|[data' total']] eqn:Hrest; [done|].
    intros [= <- <-].
    apply IH in Hrest as [Hall ->]; [|intros; apply Hids; by right].
    split; [|done]. constructor; [|done]. by repeat split; eauto.
Qed.

(** With every product found, the first item that asks for more than the
    stock stops the construction with the insufficient-stock error. *)
Lemma orderItemsData_short ps ids reqs acc :
  (∀ req, req ∈ reqs → req_productId req ∈ ids ∧ is_Some (ps !! req_productId req)) →
  (∃ req p, req ∈ reqs ∧ ps !! req_productId req = Some p ∧ stock p < req_quantity req) →
  ∃ req p, req ∈ reqs ∧ ps !! req_productId req = Some p ∧ stock p < req_quantity req ∧
    orderItemsData (prisma.rows_in ps ids) reqs acc
    = inl (insufficient_stock p (req_quantity req)).
Proof.
  revert acc. induction reqs as [|req reqs IH]; intros acc Hall (bad & pb & Hin & Hpb & Hlt).
  - by apply elem_of_nil in Hin.
  - destruct (Hall req) as [Hid [p Hp]]; [left|]. simpl.
    rewrite find_rows_in by done. rewrite Hp. simpl.
    destruct (stock p <? req_quantity req) eqn:Hcmp.
    + exists req, p. apply Z.ltb_lt in Hcmp. by repeat split; [left|..].
    + apply elem_of_cons in Hin as [->|Hin].
      { rewrite Hp in Hpb. injection Hpb as ->. apply Z.ltb_ge in Hcmp. lia. }
      destruct (IH (PrimFloat.add acc (PrimFloat.mul (price p) (Number.of_Z (req_quantity req)))))
        as (r & q & Hr & Hq & Hlt' & ->).
      * intros; apply Hall; by right.
      * eauto 6.
      * exists r, q. by repeat split; [right|..].
Qed.

Lemma req_ids_elem (reqs : list ItemRequest) req :
  req ∈ reqs → req_productId req ∈ map req_productId reqs.
Proof. intros. by apply (list_elem_of_fmap_2 req_productId). Qed.

(** What [createOrder] does once the batch lookup returned as many rows as
    identifiers were asked for. *)
Lemma createOrder_after_lookup env body w :
  length (prisma.rows_in (products w) (map req_productId (body_items body)))
  = length (map req_productId (body_items body)) →
  createOrder env body w =
  try_handler
    (match orderItemsData (prisma.rows_in (products w) (map req_productId (body_items body)))
                          (body_items body) PrimFloat.zero with
     | inl e => throw e
     | inr (data, totalAmount) =>
         order <~ prisma.order_create (uuid env)
                    (mkOrder (body_customerEmail body) totalAmount PENDING None data) ;;
         ret (sendSuccess (DOrder order) "Order created successfully" 201)
     end)
    (catch_AppError "Error in createOrder" "Failed to create order") w.
Proof.
  intros Hlen. unfold createOrder, createOrder_body, try_handler.
  unfold bind at 1. unfold prisma.product_findMany at 1.
  rewrite Hlen, Nat.eqb_refl. done.
Qed.

Definition demo_body (reqs : list (string * Z)) : CreateOrderBody :=
  mkCreateOrderBody (map (λ r, mkItemRequest r.1 r.2) reqs) "buyer@example.com".

(** The scenario of the specification: two units of a product priced 10
    with five in stock give an order of total 20 in PENDING status. *)
Example createOrder_scenario :
  ∃ v w', createOrder demo.env (demo_body [("prod-a", 2)]) demo.store
          = (sendSuccess (DOrder v) "Order created successfully" 201, w') ∧
          totalAmount (ov_order v) = 20%float ∧ status (ov_order v) = PENDING ∧
          products w' = products demo.store.
Proof. eexists _, _. split; [vm_compute; reflexivity|]. by vm_compute. Qed.

(** C7 as stated fails: an item asks for more than the stock of its
    product, yet the answer is 404 because another item references a
    product that does not exist. *)
Lemma createOrder_insufficient_stock_counterexample :
  let body := demo_body [("prod-a", 6); ("prod-x", 1)] in
  (∃ req p, req ∈ body_items body ∧
            products demo.store !! req_productId req = Some p ∧
            stock p < req_quantity req) ∧
  res_status (createOrder demo.env body demo.store).1 ≠ 400.
Proof.
  split.
  - exists (mkItemRequest "prod-a" 6), demo.widget.
    split; [by left|]. split; [by vm_compute|]. simpl. lia.
  - by vm_compute.
Qed.

(** C4 (fails on the code): an item list that names an existing product
    twice is answered with 404 "One or more products not found", although
    every referenced product exists and is in stock. *)
Theorem createOrder_duplicate_ids_not_found :
  let body := demo_body [("prod-a", 1); ("prod-a", 1)] in
  (∀ req, req ∈ body_items body →
     ∃ p, products demo.store !! req_productId req = Some p ∧
          req_quantity req ≤ stock p) ∧
  createOrder demo.env body demo.store
  = (sendError "One or more products not found" 404,
     record (Log LError "Error in createOrder") demo.store).
Proof.
  split.
  - intros req Hin. exists demo.widget.
    repeat (apply elem_of_cons in Hin as [->|Hin]; [by vm_compute|]).
    by apply elem_of_nil in Hin.
  - by vm_compute.
Qed.

(** ** Payment-intent issuance *)

(** The request sent to the processor for order [id] in state [o]. *)
Definition intent_params (id : string) (o : Order) : PaymentIntentParams :=
  mkParams (Number.Math_round (PrimFloat.mul (totalAmount o) 100%float))
           "usd" id (customerEmail o).

(** ** Admin status override *)

Lemma status_of_string_valid s st :
  status_of_string s = Some st → s ∈ validStatuses.
Proof.
  unfold status_of_string, validStatuses. intros H.
  destruct (String.eqb s "PENDING") eqn:E1; [apply String.eqb_eq in E1 as ->; constructor|].
  destruct (String.eqb s "PAID") eqn:E2;
    [apply String.eqb_eq in E2 as ->; do 1 constructor; constructor|].
  destruct (String.eqb s "FAILED") eqn:E3;
    [apply String.eqb_eq in E3 as ->; do 2 constructor; constructor|].
  destruct (String.eqb s "CANCELLED") eqn:E4;
    [apply String.eqb_eq in E4 as ->; do 3 constructor; constructor|].
  done.
Qed.

(** The names of the four statuses, as the [OrderStatus] enumeration of
    the schema writes them. *)
Definition status_names : list (string * OrderStatus) :=
  [("PENDING", PENDING); ("PAID", PAID); ("FAILED", FAILED); ("CANCELLED", CANCELLED)].

Lemma status_names_of_string s st :
  (s, st) ∈ status_names → status_of_string s = Some st.
Proof.
  unfold status_names. intros Hin.
  repeat (apply elem_of_cons in Hin as [[= -> ->]|Hin]; [reflexivity|]).
  by apply elem_of_nil in Hin.
Qed.

(** The effects of the attempt to confirm by mail in the admin override. *)
Definition admin_mail_trace (env : Env) (mail : Mail) : list Effect :=
  if forallb (λ p : option Product, bool_decide (is_Some p)) (ov_products (mail_order mail))
  then match sendMail env mail with
       | None => [MailAttempt mail true]
       | Some _ => [MailAttempt mail false; Log LError "Failed to send confirmation email"]
       end
  else [Log LError "Failed to send confirmation email"].

(** ** Further properties of order creation *)

(** With every requested product found and no item above the stock, the
    items are built. *)
Lemma orderItemsData_total ps ids reqs acc :
  (∀ req, req ∈ reqs →
     req_productId req ∈ ids ∧
     ∃ p, ps !! req_productId req = Some p ∧ req_quantity req ≤ stock p) →
  ∃ data total, orderItemsData (prisma.rows_in ps ids) reqs acc = inr (data, total).
Proof.
  revert acc. induction reqs as [|req reqs IH]; intros acc Hall; simpl; [eauto|].
  destruct (Hall req) as (Hid & p & Hp & Hq); [left|].
  rewrite find_rows_in by done. rewrite Hp. simpl.
  apply Z.ltb_ge in Hq. rewrite Hq.
  destruct (IH (PrimFloat.add acc (PrimFloat.mul (price p) (Number.of_Z (req_quantity req)))))
    as (data & total & ->); [intros; apply Hall; by right|]. eauto.
Qed.

(** With every requested product found, the only error is the one about
    the stock. *)
Lemma orderItemsData_resolved_error ps ids reqs acc e :
  (∀ req, req ∈ reqs → req_productId req ∈ ids ∧ is_Some (ps !! req_productId req)) →
  orderItemsData (prisma.rows_in ps ids) reqs acc = inl e →
  ∃ msg, e = AppError msg 400.
Proof.
  revert acc. induction reqs as [|req reqs IH]; intros acc Hall; simpl; [done|].
  destruct (Hall req) as (Hid & p & Hp); [left|].
  rewrite find_rows_in by done. rewrite Hp. simpl.
  destruct (stock p <? req_quantity req); [intros [= <-]; eauto|].
  destruct (orderItemsData _ reqs _) as [e'|[data total]] eqn:Hrest; [|done].
  intros [= <-]. eapply IH; [|done]. intros; apply Hall; by right.
Qed.

Lemma captures_resolve ps reqs data :
  Forall2 (captures ps) reqs data → items_resolve ps data = true.
Proof.
  unfold items_resolve.
  induction 1 as [|req it reqs data (Hid & _ & p & Hp & _) _ IH]; simpl; [done|].
  rewrite IH, Hid. rewrite bool_decide_eq_true_2; [done|]. by rewrite Hp.
Qed.


(** The answer is 404 exactly when the requested identifiers are not
    pairwise distinct or one of them names no product. *)
Theorem createOrder_not_found_iff env body w :
  res_status (createOrder env body w).1 = 404 ↔
  ¬ (NoDup (map req_productId (body_items body)) ∧
     ∀ id, id ∈ map req_productId (body_items body) → is_Some (products w !! id)).
Proof.
  split.
  - intros Hcode [Hnd Hall].
    rewrite createOrder_after_lookup in Hcode by by apply rows_in_length_all.
    unfold try_handler in Hcode.
    destruct (orderItemsData _ _ _) as [e|[data total]] eqn:Hdata.
    + apply orderItemsData_resolved_error in Hdata as [msg ->]; [done|].
      intros req Hin. split; [by apply req_ids_elem | by apply Hall, req_ids_elem].
    + unfold bind at 1 in Hcode. unfold prisma.order_create in Hcode. cbv beta in Hcode.
      destruct (orders w !! uuid env); [done|]. simpl in Hcode.
      by destruct (items_resolve _ _).
  - intros Hno.
    unfold createOrder, createOrder_body, try_handler.
    unfold bind at 1. unfold prisma.product_findMany at 1.
    destruct (length _ =? length _)%nat eqn:Hlen; [|done].
    apply Nat.eqb_eq, rows_in_length_inv in Hlen. done.
Qed.

(** Pairwise distinct existing products, quantities within the stock and
    a fresh identifier make [createOrder] answer 201. *)
Theorem createOrder_succeeds env body w :
  NoDup (map req_productId (body_items body)) →
  (∀ req, req ∈ body_items body →
     ∃ p, products w !! req_productId req = Some p ∧ req_quantity req ≤ stock p) →
  orders w !! uuid env = None →
  res_status (createOrder env body w).1 = 201.
Proof.
  intros Hnd Hall Hfresh.
  rewrite createOrder_after_lookup.
  2:{ apply rows_in_length_all; [done|].
      intros id (req & -> & Hin)%list_elem_of_fmap.
      destruct (Hall req Hin) as (p & -> & _). done. }
  unfold try_handler.
  destruct (orderItemsData_total (products w) (map req_productId (body_items body))
              (body_items body) PrimFloat.zero) as (data & total & Hdata).
  { intros req Hin. split; [by apply req_ids_elem | by apply Hall]. }
  rewrite Hdata.
  apply orderItemsData_ok in Hdata as [Hcap ->]; [|apply req_ids_elem].
  apply captures_resolve in Hcap.
  unfold bind at 1. unfold prisma.order_create. cbv beta. rewrite Hfresh. simpl.
  by rewrite Hcap.
Qed.

Lemma createOrder_succeeds_witness :
  res_status (createOrder demo.env (demo_body [("prod-a", 5); ("prod-b", 1)]) demo.store).1 = 201.
Proof.
  apply (createOrder_succeeds demo.env (demo_body [("prod-a", 5); ("prod-b", 1)]) demo.store).
  - apply (bool_decide_unpack _). by vm_compute.
  - intros req Hin.
    repeat (apply elem_of_cons in Hin as [->|Hin];
            [eexists; split; [vm_compute; reflexivity | simpl; lia]|]).
    by apply elem_of_nil in Hin.
  - vm_compute; reflexivity.
Defined.

(** ** Exact runs of the settlement paths *)

Lemma on_payment_succeeded_skip env event w :
  truthy (metadata_orderId event) = false ∨
  (∃ oid, metadata_orderId event = Some oid ∧
          (orders w !! oid = None ∨
           ∃ o, orders w !! oid = Some o ∧ status o ≠ PENDING)) →
  on_payment_succeeded env event w = (inr tt, w).
Proof.
  intros Hcase. unfold on_payment_succeeded.
  destruct (truthy (metadata_orderId event)) eqn:Htr; [|done].
  destruct Hcase as [?|(oid & Hmeta & Hcase)]; [done|].
  rewrite Hmeta. simpl.
  unfold bind at 1. unfold prisma.order_findUnique at 1.
  destruct Hcase as [Hnone|(o & Ho & Hst)].
  - by rewrite Hnone.
  - rewrite Ho. simpl. by rewrite bool_decide_eq_false_2.
Qed.

Lemma on_payment_succeeded_settle env event oid o ps os tr :
  metadata_orderId event = Some oid →
  oid ≠ "" →
  os !! oid = Some o →
  status o = PENDING →
  items_resolve ps (items o) = true →
  on_payment_succeeded env event (mkWorld ps os tr)
  = (inr tt,
     mkWorld (settle_stock (items o) ps) (<[oid := set_status PAID o]> os)
             (tr ++ webhook_mail_trace env oid (confirmation_mail oid (set_status PAID o) ps))).
Proof.
  intros Hmeta Hoid Ho Hst Hres. unfold on_payment_succeeded.
  rewrite Hmeta, (truthy_Some _ Hoid). simpl.
  unfold bind at 1. unfold prisma.order_findUnique at 1. simpl. rewrite Ho. simpl.
  rewrite Hst. simpl.
  unfold bind at 1. unfold prisma.order_update at 1. simpl. rewrite Ho. simpl.
  unfold bind at 1. rewrite (webhook_loop _ _ _ _ Hres).
  unfold try_catch, bind at 1, sendOrderConfirmationEmail. simpl.
  rewrite (forallb_resolved _ _ Hres).
  unfold webhook_mail_trace, confirmation_mail, prisma.include_items. simpl.
  match goal with |- context [sendMail env ?m] => destruct (sendMail env m) end;
    step_effects; by rewrite <- ?app_assoc.
Qed.

(** The world an admin override leaves. *)
Definition overridden (env : Env) (id : string) (st : OrderStatus) (o : Order)
  (ps : gmap string Product) (os : gmap string Order) (tr : list Effect) : World :=
  if bool_decide (st = PAID) && negb (bool_decide (status o = PAID)) then
    mkWorld (settle_stock (items o) ps) (<[id := set_status st o]> os)
            (tr ++ stock_failures ps (items o)
                ++ admin_mail_trace env (confirmation_mail id (set_status st o) ps))
  else mkWorld ps (<[id := set_status st o]> os) tr.

Lemma updateOrderStatus_run env id s st o ps os tr :
  os !! id = Some o →
  status_of_string s = Some st →
  updateOrderStatus env id s (mkWorld ps os tr)
  = (sendSuccess (DOrder (mkOrderView id (set_status st o)
                                      (map (λ it, ps !! productId it) (items o))))
                 "Order status updated successfully" 200,
     overridden env id st o ps os tr).
Proof.
  intros Ho Hs.
  unfold updateOrderStatus, updateOrderStatus_body, try_handler.
  unfold bind at 1. unfold prisma.order_findUnique at 1. cbv beta. simpl.
  rewrite Ho. simpl.
  rewrite (bool_decide_eq_true_2 _ (status_of_string_valid _ _ Hs)). simpl.
  rewrite Hs. unfold bind at 1. unfold prisma.order_update at 1. simpl. rewrite Ho. simpl.
  unfold bind at 1. unfold overridden.
  destruct (bool_decide (st = PAID) && negb (bool_decide (status o = PAID))); [|done].
  unfold bind at 1. rewrite admin_loop.
  unfold try_catch, sendOrderConfirmationEmail, prisma.include_items. simpl.
  unfold admin_mail_trace, confirmation_mail. simpl.
  destruct (forallb _ _).
  - match goal with |- context [sendMail env ?m] => destruct (sendMail env m) end;
      step_effects; by rewrite <- ?app_assoc.
  - step_effects. by rewrite <- ?app_assoc.
Qed.

(** ** The operations of the workflow as steps of one system *)

Inductive Operation :=
| CreateOrder (body : CreateOrderBody)
| CreatePaymentIntent (id : string)
| UpdateOrderStatus (id status_ : string)
| GetOrderById (id : string)
| StripeWebhook (req : WebhookRequest).

Definition perform (env : Env) (op : Operation) : World → Response * World :=
  match op with
  | CreateOrder body => createOrder env body
  | CreatePaymentIntent id => createPaymentIntent env id
  | UpdateOrderStatus id status_ => updateOrderStatus env id status_
  | GetOrderById id => getOrderById id
  | StripeWebhook req => handleStripeWebhook env req
  end.

(** A sequence of operations, each under the configuration and
    collaborator behaviour of its moment. *)
Definition perform_all (ops : list (Env * Operation)) (w : World) : World :=
  foldl (λ w eo, (perform eo.1 eo.2 w).2) w ops.

(** What one operation can do to the tables: stock of existing products
    is lowered for some items, and at most one order is written: its
    status, its payment intent, or a new order with resolving items under
    a free key. *)
Definition step_shape (w w' : World) : Prop :=
  (∃ its, products w' = settle_stock its (products w)) ∧
  (orders w' = orders w ∨
   (∃ id o st, orders w !! id = Some o ∧ orders w' = <[id := set_status st o]> (orders w)) ∨
   (∃ id o pi, orders w !! id = Some o ∧ orders w' = <[id := set_intent pi o]> (orders w)) ∨
   (∃ id o, orders w !! id = None ∧ items_resolve (products w) (items o) = true ∧
            orders w' = <[id := o]> (orders w))).

Lemma step_shape_same w w' :
  products w' = products w → orders w' = orders w → step_shape w w'.
Proof. intros Hp Ho. split; [by exists [] | by left]. Qed.

Lemma sendOrderConfirmationEmail_tables env email id v ps os tr :
  ∃ r tr', sendOrderConfirmationEmail env email id v (mkWorld ps os tr)
           = (r, mkWorld ps os tr').
Proof.
  unfold sendOrderConfirmationEmail.
  destruct (forallb _ _); [|by eexists _, _].
  match goal with |- context [sendMail env ?m] => destruct (sendMail env m) end;
    step_effects; by eexists _, _.
Qed.

(** The webhook's stock loop stops at the first failing update: the items
    before it have been applied. *)
Lemma webhook_loop_any its ps os tr :
  ∃ r applied,
    for_of its (λ item,
      prisma.product_update (productId item) (decrement (quantity item)) ;;; ret tt)
      (mkWorld ps os tr)
    = (r, mkWorld (settle_stock applied ps) os tr).
Proof.
  revert ps. induction its as [|it its IH]; intros ps; [by exists (inr tt), []|].
  simpl. unfold bind at 1. unfold bind at 1. unfold prisma.product_update at 1. simpl.
  destruct (ps !! productId it) as [p|] eqn:Hp; simpl; [|by eexists _, []].
  rewrite (insert_as_alter _ _ _ _ Hp).
  destruct (IH (alter (decrement (quantity it)) (productId it) ps)) as (r & applied & ->).
  by exists r, (it :: applied).
Qed.

(** What a [payment_intent.succeeded] event can do to the tables: nothing,
    or some stock is lowered and one PENDING order becomes PAID. *)
Lemma on_payment_succeeded_tables env event w r w' :
  on_payment_succeeded env event w = (r, w') →
  (products w' = products w ∧ orders w' = orders w) ∨
  (∃ its oid o,
     products w' = settle_stock its (products w) ∧
     orders w !! oid = Some o ∧ status o = PENDING ∧
     orders w' = <[oid := set_status PAID o]> (orders w)).
Proof.
  unfold on_payment_succeeded. destruct w as [ps os tr].
  destruct (truthy (metadata_orderId event)); [|intros [= <- <-]; by left].
  unfold bind at 1. unfold prisma.order_findUnique at 1. cbv beta. simpl.
  destruct (os !! default "" (metadata_orderId event)) as [o|] eqn:Ho; simpl;
    [|intros [= <- <-]; by left].
  destruct (bool_decide (status o = PENDING)) eqn:Hst; [|intros [= <- <-]; by left].
  apply bool_decide_eq_true in Hst.
  unfold bind at 1. unfold prisma.order_update at 1. simpl. rewrite Ho. simpl.
  unfold bind at 1.
  destruct (webhook_loop_any (items o) ps
              (<[default "" (metadata_orderId event) := set_status PAID o]> os) tr)
    as (rl & applied & ->).
  destruct rl as [e|[]]; [intros [= <- <-]; right; by eexists _, _, _|].
  unfold try_catch, bind at 1.
  match goal with |- context [sendOrderConfirmationEmail ?a ?b ?c ?d] =>
    destruct (sendOrderConfirmationEmail_tables a b c d (settle_stock applied ps)
                (<[default "" (metadata_orderId event) := set_status PAID o]> os) tr)
      as (rm & tr' & ->) end.
  destruct rm as [e|[]]; step_effects; intros [= <- <-]; right; by eexists _, _, _.
Qed.

Lemma on_payment_succeeded_shape env event w r w' :
  on_payment_succeeded env event w = (r, w') → step_shape w w'.
Proof.
  intros [[Hp Ho]|(its & oid & o & Hp & Ho & _ & Hos)]%on_payment_succeeded_tables.
  - by apply step_shape_same.
  - split; [by eexists|]. right. left. by eexists _, _, _.
Qed.

Lemma on_payment_failed_tables event w r w' :
  on_payment_failed event w = (r, w') →
  products w' = products w ∧
  (orders w' = orders w ∨
   ∃ oid o, orders w !! oid = Some o ∧ orders w' = <[oid := set_status FAILED o]> (orders w)).
Proof.
  unfold on_payment_failed. destruct w as [ps os tr].
  destruct (truthy (metadata_orderId event)); [|intros [= <- <-]; by split; [|left]].
  unfold bind at 1. unfold prisma.order_update at 1. cbv beta. simpl.
  destruct (os !! default "" (metadata_orderId event)) as [o|] eqn:Ho; simpl;
    intros [= <- <-]; (split; [done|]); [right; by eexists _, _ | by left].
Qed.

(** What a webhook delivery can do to the tables: nothing; or lower some
    stock and move one PENDING order to PAID; or, for a verified
    [payment_intent.payment_failed] event, set one order to FAILED. *)
Lemma handleStripeWebhook_tables env req w r w' :
  handleStripeWebhook env req w = (r, w') →
  (products w' = products w ∧ orders w' = orders w) ∨
  (∃ its oid o,
     products w' = settle_stock its (products w) ∧
     orders w !! oid = Some o ∧ status o = PENDING ∧
     orders w' = <[oid := set_status PAID o]> (orders w)) ∨
  (∃ event oid o,
     verified env req event ∧ ev_type event = "payment_intent.payment_failed" ∧
     products w' = products w ∧
     orders w !! oid = Some o ∧
     orders w' = <[oid := set_status FAILED o]> (orders w)).
Proof.
  unfold handleStripeWebhook, handleStripeWebhook_body, try_handler.
  destruct (truthy (stripe_signature req)) eqn:Hsig; simpl; [|intros [= <- <-]; by left].
  destruct (String.eqb (STRIPE_WEBHOOK_SECRET env) "") eqn:Hsecret;
    [intros [= <- <-]; by left|].
  destruct (constructEvent env _ _ _) as [msg|event] eqn:Hev;
    [step_effects; intros [= <- <-]; by left|].
  assert (verified env req event) as Hver.
  { split; [done|]. split; [by apply String.eqb_neq|done]. }
  unfold bind at 1.
  destruct (String.eqb (ev_type event) "payment_intent.succeeded").
  { destruct (on_payment_succeeded env event w) as [[e|[]] w1] eqn:Hrun;
      apply on_payment_succeeded_tables in Hrun as [[??]|(its & oid & o & ? & ? & ? & ?)];
      simpl; intros [= <- <-]; simpl;
      first [by left | right; left; by eexists _, _, _]. }
  destruct (String.eqb (ev_type event) "payment_intent.payment_failed") eqn:Hty.
  { apply String.eqb_eq in Hty.
    destruct (on_payment_failed event w) as [[e|[]] w1] eqn:Hrun;
      apply on_payment_failed_tables in Hrun as [? [?|(oid & o & ? & ?)]];
      simpl; intros [= <- <-]; simpl;
      first [by left | right; right; by eexists _, _, _]. }
  step_effects. intros [= <- <-]. by left.
Qed.

Lemma handleStripeWebhook_shape env req w :
  step_shape w (handleStripeWebhook env req w).2.
Proof.
  destruct (handleStripeWebhook env req w) as [r w'] eqn:Hrun.
  apply handleStripeWebhook_tables in Hrun
    as [[Hp Ho]|[(its & oid & o & Hp & Ho & _ & Hos)|(ev & oid & o & _ & _ & Hp & Ho & Hos)]].
  - by apply step_shape_same.
  - split; [by eexists|]. right. left. by eexists _, _, _.
  - split; [by exists []|]. right. left. by eexists _, _, _.
Qed.

(** [createOrder] never writes a product; it writes no order, or one new
    PENDING order under a free key whose items reference existing products. *)
Lemma createOrder_tables env body w r w' :
  createOrder env body w = (r, w') →
  products w' = products w ∧
  (orders w' = orders w ∨
   ∃ o, orders w !! uuid env = None ∧ items_resolve (products w) (items o) = true ∧
        status o = PENDING ∧ orders w' = <[uuid env := o]> (orders w)).
Proof.
  unfold createOrder, createOrder_body, try_handler.
  unfold bind at 1. unfold prisma.product_findMany at 1. cbv beta.
  destruct (negb _); [intros [= <- <-]; by split; [|left]|].
  destruct (orderItemsData _ _ _) as [e|[data total]];
    [intros [= <- <-]; by split; [|left]|].
  unfold bind at 1. unfold prisma.order_create. cbv beta.
  destruct (orders w !! uuid env) eqn:Hfresh; [intros [= <- <-]; by split; [|left]|].
  simpl. destruct (items_resolve (products w) data) eqn:Hres;
    [|intros [= <- <-]; by split; [|left]].
  unfold ret. simpl. intros [= <- <-]. split; [done|]. right. eexists.
  split; [done|]. split; [|split; [|reflexivity]]; done.
Qed.

Lemma createOrder_shape env body w :
  step_shape w (createOrder env body w).2.
Proof.
  destruct (createOrder env body w) as [r w'] eqn:Hrun.
  apply createOrder_tables in Hrun as [Hp [Ho|(o & Hfresh & Hres & _ & Ho)]].
  - by apply step_shape_same.
  - split; [by exists []|]. do 3 right. by exists (uuid env), o.
Qed.

(** [createPaymentIntent] never writes a product; it writes no order, or
    the payment intent of the PENDING order it was asked for. *)
Lemma createPaymentIntent_tables env id w r w' :
  createPaymentIntent env id w = (r, w') →
  products w' = products w ∧
  (orders w' = orders w ∨
   ∃ o pi, orders w !! id = Some o ∧ status o = PENDING ∧
           orders w' = <[id := set_intent pi o]> (orders w)).
Proof.
  unfold createPaymentIntent, createPaymentIntent_body, try_handler.
  unfold bind at 1. unfold prisma.order_findUnique at 1. cbv beta.
  destruct (orders w !! id) as [o|] eqn:Ho; simpl; [|intros [= <- <-]; by split; [|left]].
  destruct (bool_decide (status o = PENDING)) eqn:Hst; simpl;
    [|intros [= <- <-]; by split; [|left]].
  apply bool_decide_eq_true in Hst.
  step_effects. destruct (paymentIntents_create env _);
    [intros [= <- <-]; by split; [|left]|].
  unfold prisma.order_update. simpl. rewrite Ho. simpl.
  intros [= <- <-]. split; [done|]. right. by eexists _, _.
Qed.

Lemma createPaymentIntent_shape env id w :
  step_shape w (createPaymentIntent env id w).2.
Proof.
  destruct (createPaymentIntent env id w) as [r w'] eqn:Hrun.
  apply createPaymentIntent_tables in Hrun as [Hp [Ho|(o & pi & Ho & _ & Hos)]].
  - by apply step_shape_same.
  - split; [by exists []|]. right. right. left. by eexists _, _, _.
Qed.

Lemma updateOrderStatus_shape env id s w :
  step_shape w (updateOrderStatus env id s w).2.
Proof.
  destruct w as [ps os tr].
  destruct (os !! id) as [o|] eqn:Ho.
  2:{ unfold updateOrderStatus, updateOrderStatus_body, try_handler.
      unfold bind at 1. unfold prisma.order_findUnique at 1. cbv beta. simpl.
      rewrite Ho. by apply step_shape_same. }
  destruct (status_of_string s) as [st|] eqn:Hs.
  - rewrite (updateOrderStatus_run _ _ _ _ _ _ _ _ Ho Hs). simpl. unfold overridden.
    destruct (_ && _); (split; [first [by exists (items o) | by exists []]|]);
      right; left; by eexists _, _, _.
  - unfold updateOrderStatus, updateOrderStatus_body, try_handler.
    unfold bind at 1. unfold prisma.order_findUnique at 1. cbv beta. simpl.
    rewrite Ho. simpl. destruct (negb _); [by apply step_shape_same|].
    rewrite Hs. by apply step_shape_same.
Qed.

Lemma getOrderById_shape id w : step_shape w (getOrderById id w).2.
Proof.
  unfold getOrderById, getOrderById_body, try_handler.
  unfold bind at 1. unfold prisma.order_findUnique at 1. cbv beta.
  destruct (orders w !! id); by apply step_shape_same.
Qed.

Lemma perform_shape env op w : step_shape w (perform env op w).2.
Proof.
  destruct op; simpl;
    auto using createOrder_shape, createPaymentIntent_shape, updateOrderStatus_shape,
               getOrderById_shape, handleStripeWebhook_shape.
Qed.

(** ** Invariants of the workflow *)

(** The foreign key of [order_items]: the items of every stored order
    reference existing products. *)
Definition foreign_keys (w : World) : Prop :=
  map_Forall (λ _ o, items_resolve (products w) (items o) = true) (orders w).

(** [o'] is [o] up to status and payment intent. *)
Definition same_contents (o o' : Order) : Prop :=
  customerEmail o' = customerEmail o ∧
  totalAmount o' = totalAmount o ∧
  items o' = items o.

Lemma settle_stock_resolve its ps its' :
  items_resolve (settle_stock its ps) its' = items_resolve ps its'.
Proof.
  revert ps. induction its as [|it its IH]; intros ps; [done|].
  unfold settle_stock in *. simpl. by rewrite IH, items_resolve_alter.
Qed.

Lemma step_catalog w w' pid :
  step_shape w w' → ∃ n, products w' !! pid = decrement n <$> products w !! pid.
Proof.
  intros [[its ->] _]. eexists. apply settle_stock_lookup.
Qed.

Lemma step_orders w w' id o :
  step_shape w w' → orders w !! id = Some o →
  ∃ o', orders w' !! id = Some o' ∧ same_contents o o'.
Proof.
  intros [_ Hos] Ho.
  destruct Hos as [->|[(id' & o1 & st & Ho1 & ->)|[(id' & o1 & pi & Ho1 & ->)|
                       (id' & o1 & Hfresh & _ & ->)]]].
  - by exists o.
  - destruct (decide (id' = id)) as [->|Hne].
    + rewrite lookup_insert_eq. rewrite Ho in Ho1. injection Ho1 as <-. by eexists.
    + rewrite lookup_insert_ne by done. by exists o.
  - destruct (decide (id' = id)) as [->|Hne].
    + rewrite lookup_insert_eq. rewrite Ho in Ho1. injection Ho1 as <-. by eexists.
    + rewrite lookup_insert_ne by done. by exists o.
  - rewrite lookup_insert_ne by congruence. by exists o.
Qed.

Lemma step_foreign_keys w w' :
  step_shape w w' → foreign_keys w → foreign_keys w'.
Proof.
  intros [[its Hps] Hos] Hfk id o Ho. rewrite Hps, settle_stock_resolve.
  destruct Hos as [Heq|[(id' & o1 & st & Ho1 & Heq)|[(id' & o1 & pi & Ho1 & Heq)|
                       (id' & o1 & Hfresh & Hres & Heq)]]]; rewrite Heq in Ho.
  - by eapply Hfk.
  - apply lookup_insert_Some in Ho as [[<- <-]|[_ Ho]];
      [simpl; by apply (Hfk id' o1) | by eapply Hfk].
  - apply lookup_insert_Some in Ho as [[<- <-]|[_ Ho]];
      [simpl; by apply (Hfk id' o1) | by eapply Hfk].
  - apply lookup_insert_Some in Ho as [[<- <-]|[_ Ho]]; [done | by eapply Hfk].
Qed.

Lemma perform_all_snoc ops eo w :
  perform_all (ops ++ [eo]) w = (perform eo.1 eo.2 (perform_all ops w)).2.
Proof. unfold perform_all. by rewrite foldl_app. Qed.

(** Over any sequence of operations no product is added or removed and
    nothing but the stock of a product changes. *)
Theorem perform_all_catalog_stable ops w pid :
  ∃ n, products (perform_all ops w) !! pid = decrement n <$> products w !! pid.
Proof.
  induction ops as [|eo ops IH] using rev_ind.
  - exists 0. simpl. destruct (products w !! pid); simpl; [by rewrite decrement_0|done].
  - rewrite perform_all_snoc. destruct IH as [n IH].
    destruct (step_catalog _ _ pid (perform_shape eo.1 eo.2 (perform_all ops w))) as [m ->].
    rewrite IH. exists (n + m).
    destruct (products w !! pid); simpl; [by rewrite decrement_decrement|done].
Qed.

(** Over any sequence of operations a stored order stays stored, with the
    customer, the total and the items (product, captured price, quantity)
    it was created with. *)
Theorem perform_all_order_contents ops w id o :
  orders w !! id = Some o →
  ∃ o', orders (perform_all ops w) !! id = Some o' ∧ same_contents o o'.
Proof.
  intros Ho. induction ops as [|eo ops IH] using rev_ind; [by exists o|].
  rewrite perform_all_snoc. destruct IH as (o1 & Ho1 & Hc1 & Hc2 & Hc3).
  destruct (step_orders _ _ id o1 (perform_shape eo.1 eo.2 (perform_all ops w)) Ho1)
    as (o2 & Ho2 & Hd1 & Hd2 & Hd3).
  exists o2. split; [done|]. repeat split; congruence.
Qed.

(** The operations keep the foreign key: from a consistent store, every
    stored order's items reference existing products after any sequence
    of operations. *)
Theorem perform_all_foreign_keys ops w :
  foreign_keys w → foreign_keys (perform_all ops w).
Proof.
  intros Hfk. induction ops as [|eo ops IH] using rev_ind; [done|].
  rewrite perform_all_snoc. eapply step_foreign_keys; [apply perform_shape | done].
Qed.

Lemma getOrderById_tables id w :
  products (getOrderById id w).2 = products w ∧ orders (getOrderById id w).2 = orders w.
Proof.
  unfold getOrderById, getOrderById_body, try_handler, bind, prisma.order_findUnique.
  by destruct (orders w !! id).
Qed.

(** An order that has left PENDING keeps its status under every operation
    other than the admin override and the delivery of a verified
    [payment_intent.payment_failed] event. *)
Theorem settled_status_kept env op w id o :
  orders w !! id = Some o →
  status o ≠ PENDING →
  (∀ i s, op ≠ UpdateOrderStatus i s) →
  (∀ req event, op = StripeWebhook req → verified env req event →
                ev_type event ≠ "payment_intent.payment_failed") →
  ∃ o', orders (perform env op w).2 !! id = Some o' ∧ status o' = status o.
Proof.
  intros Ho Hst Hadmin Hfailed.
  destruct op as [body|i|i s|i|req]; simpl.
  - destruct (createOrder env body w) as [r w'] eqn:Hrun; simpl.
    apply createOrder_tables in Hrun as [_ [->|(o1 & Hfresh & _ & _ & ->)]]; simpl.
    + by exists o.
    + rewrite lookup_insert_ne by congruence. by exists o.
  - destruct (createPaymentIntent env i w) as [r w'] eqn:Hrun; simpl.
    apply createPaymentIntent_tables in Hrun as [_ [->|(o1 & pi & Ho1 & Hpend & ->)]]; simpl.
    + by exists o.
    + destruct (decide (i = id)) as [->|Hne]; [congruence|].
      rewrite lookup_insert_ne by done. by exists o.
  - by destruct (Hadmin i s).
  - destruct (getOrderById_tables i w) as [_ ->]. by exists o.
  - destruct (handleStripeWebhook env req w) as [r w'] eqn:Hrun; simpl.
    apply handleStripeWebhook_tables in Hrun
      as [[_ ->]|[(its & oid & o1 & _ & Ho1 & Hpend & ->)|(ev & oid & o1 & Hver & Hty & _)]];
      simpl.
    + by exists o.
    + destruct (decide (oid = id)) as [->|Hne]; [congruence|].
      rewrite lookup_insert_ne by done. by exists o.
    + by destruct (Hfailed req ev).
Qed.

Lemma settled_status_kept_witness :
  ∃ o', orders (perform demo.env (StripeWebhook (demo.request "succeeded order-2"))
                        demo.store).2 !! "order-2" = Some o' ∧
        status o' = status demo.paid_order.
Proof.
  apply (settled_status_kept demo.env (StripeWebhook (demo.request "succeeded order-2"))
           demo.store "order-2" demo.paid_order).
  - vm_compute; reflexivity.
  - discriminate.
  - discriminate.
  - intros req event [= <-] (_ & _ & Hev). vm_compute in Hev.
    injection Hev as <-. discriminate.
Defined.

Lemma perform_all_order_contents_witness :
  ∃ o', orders (perform_all
                  [(demo.env, CreatePaymentIntent "order-1");
                   (demo.env, StripeWebhook (demo.request "succeeded order-1"));
                   (demo.env, UpdateOrderStatus "order-1" "CANCELLED")]
                  demo.store) !! "order-1" = Some o' ∧
        same_contents demo.pending_order o'.
Proof.
  apply (perform_all_order_contents
           [(demo.env, CreatePaymentIntent "order-1");
            (demo.env, StripeWebhook (demo.request "succeeded order-1"));
            (demo.env, UpdateOrderStatus "order-1" "CANCELLED")]
           demo.store "order-1" demo.pending_order).
  vm_compute; reflexivity.
Defined.

Lemma perform_all_foreign_keys_witness :
  foreign_keys (perform_all
                  [(demo.env, CreateOrder (demo_body [("prod-b", 1)]));
                   (demo.env, StripeWebhook (demo.request "succeeded order-1"))]
                  demo.store).
Proof.
  apply (perform_all_foreign_keys
           [(demo.env, CreateOrder (demo_body [("prod-b", 1)]));
            (demo.env, StripeWebhook (demo.request "succeeded order-1"))]
           demo.store).
  apply (bool_decide_unpack _). by vm_compute.
Defined.

(** ** Settlement happens once *)

(** A second delivery of the same [payment_intent.succeeded] event, after
    the first one settled the order, changes nothing: no stock is lowered
    again, no second mail is attempted. *)
Theorem webhook_succeeded_redelivery env req event oid o w :
  verified env req event →
  ev_type event = "payment_intent.succeeded" →
  metadata_orderId event = Some oid →
  oid ≠ "" →
  orders w !! oid = Some o →
  status o = PENDING →
  items_resolve (products w) (items o) = true →
  handleStripeWebhook env req (handleStripeWebhook env req w).2
  = (acknowledged, (handleStripeWebhook env req w).2).
Proof.
  intros Hver Hty Hmeta Hoid Ho Hst Hres. destruct w as [ps os tr]. simpl in *.
  rewrite !(webhook_verified _ _ _ _ Hver), Hty. simpl.
  unfold try_handler at 2 3. unfold bind at 2 3.
  rewrite (on_payment_succeeded_settle _ _ _ _ _ _ _ Hmeta Hoid Ho Hst Hres). simpl.
  unfold try_handler, bind. rewrite on_payment_succeeded_skip; [done|].
  right. exists oid. split; [done|]. right. exists (set_status PAID o). simpl.
  by rewrite lookup_insert_eq.
Qed.

Lemma webhook_succeeded_redelivery_witness :
  handleStripeWebhook demo.env (demo.request "succeeded order-1")
    (handleStripeWebhook demo.env (demo.request "succeeded order-1") demo.store).2
  = (acknowledged,
     (handleStripeWebhook demo.env (demo.request "succeeded order-1") demo.store).2).
Proof.
  apply (webhook_succeeded_redelivery demo.env (demo.request "succeeded order-1")
           (demo.event_for "payment_intent.succeeded" "order-1") "order-1"
           demo.pending_order demo.store).
  - split; [reflexivity | split; [discriminate | reflexivity]].
  - reflexivity.
  - reflexivity.
  - discriminate.
  - vm_compute; reflexivity.
  - reflexivity.
  - vm_compute; reflexivity.
Defined.

(** After the webhook settled an order, an admin override of that order
    to PAID answers 200 and leaves the whole world as it is: the stock is
    not lowered a second time and no second mail is attempted. *)
Theorem admin_paid_after_webhook env env' req event oid o w :
  verified env req event →
  ev_type event = "payment_intent.succeeded" →
  metadata_orderId event = Some oid →
  oid ≠ "" →
  orders w !! oid = Some o →
  status o = PENDING →
  items_resolve (products w) (items o) = true →
  ∃ v, updateOrderStatus env' oid "PAID" (handleStripeWebhook env req w).2
       = (sendSuccess (DOrder v) "Order status updated successfully" 200,
          (handleStripeWebhook env req w).2).
Proof.
  intros Hver Hty Hmeta Hoid Ho Hst Hres. destruct w as [ps os tr]. simpl in *.
  rewrite (webhook_verified _ _ _ _ Hver), Hty. simpl.
  unfold try_handler, bind.
  rewrite (on_payment_succeeded_settle _ _ _ _ _ _ _ Hmeta Hoid Ho Hst Hres). simpl.
  erewrite (updateOrderStatus_run env' oid "PAID" PAID (set_status PAID o));
    [|by rewrite lookup_insert_eq | done].
  eexists. f_equal. unfold overridden. simpl.
  by rewrite insert_insert_eq.
Qed.

Lemma admin_paid_after_webhook_witness :
  ∃ v, updateOrderStatus demo.env "order-1" "PAID"
         (handleStripeWebhook demo.env (demo.request "succeeded order-1") demo.store).2
       = (sendSuccess (DOrder v) "Order status updated successfully" 200,
          (handleStripeWebhook demo.env (demo.request "succeeded order-1") demo.store).2).
Proof.
  apply (admin_paid_after_webhook demo.env demo.env (demo.request "succeeded order-1")
           (demo.event_for "payment_intent.succeeded" "order-1") "order-1"
           demo.pending_order demo.store).
  - split; [reflexivity | split; [discriminate | reflexivity]].
  - reflexivity.
  - reflexivity.
  - discriminate.
  - vm_compute; reflexivity.
  - reflexivity.
  - vm_compute; reflexivity.
Defined.

(** After an admin override moved a PENDING order to PAID, the delivery
    of the [payment_intent.succeeded] event for it is acknowledged and
    changes nothing. *)
Theorem webhook_after_admin_paid env env' req event oid o w :
  verified env req event →
  ev_type event = "payment_intent.succeeded" →
  metadata_orderId event = Some oid →
  orders w !! oid = Some o →
  handleStripeWebhook env req (updateOrderStatus env' oid "PAID" w).2
  = (acknowledged, (updateOrderStatus env' oid "PAID" w).2).
Proof.
  intros Hver Hty Hmeta Ho. destruct w as [ps os tr]. simpl in *.
  rewrite (updateOrderStatus_run env' oid "PAID" PAID o ps os tr Ho eq_refl). simpl.
  rewrite (webhook_verified _ _ _ _ Hver), Hty. simpl.
  unfold try_handler, bind. rewrite on_payment_succeeded_skip; [done|].
  right. exists oid. split; [done|]. right. exists (set_status PAID o).
  split; [|done]. unfold overridden.
  destruct (_ && _); simpl; by rewrite lookup_insert_eq.
Qed.

Lemma webhook_after_admin_paid_witness :
  handleStripeWebhook demo.env (demo.request "succeeded order-1")
    (updateOrderStatus demo.env "order-1" "PAID" demo.store).2
  = (acknowledged, (updateOrderStatus demo.env "order-1" "PAID" demo.store).2).
Proof.
  apply (webhook_after_admin_paid demo.env demo.env (demo.request "succeeded order-1")
           (demo.event_for "payment_intent.succeeded" "order-1") "order-1"
           demo.pending_order demo.store).
  - split; [reflexivity | split; [discriminate | reflexivity]].
  - reflexivity.
  - reflexivity.
  - vm_compute; reflexivity.
Defined.

(** ** Error paths *)







(** A verified event of any other type is acknowledged; it leaves one
    info entry in the log and nothing else. *)
Theorem webhook_unhandled_event env req event w :
  verified env req event →
  ev_type event ≠ "payment_intent.succeeded" →
  ev_type event ≠ "payment_intent.payment_failed" →
  handleStripeWebhook env req w
  = (acknowledged,
     record (Log LInfo ("Unhandled webhook event type: " +:+ ev_type event)) w).
Proof.
  intros Hver H1%String.eqb_neq H2%String.eqb_neq.
  rewrite (webhook_verified _ _ _ _ Hver), H1, H2. done.
Qed.

Lemma webhook_unhandled_event_witness :
  handleStripeWebhook demo.env (demo.request "refund") demo.store
  = (acknowledged,
     record (Log LInfo ("Unhandled webhook event type: " +:+ "charge.refunded")) demo.store).
Proof.
  apply (webhook_unhandled_event demo.env (demo.request "refund")
           (mkEvent "charge.refunded" "evt_2" "ch_1" None) demo.store).
  - split; [reflexivity | split; [discriminate | reflexivity]].
  - discriminate.
  - discriminate.
Defined.



(** ** From creation to settlement *)

Lemma orderItemsData_within_stock ps ids reqs acc data total :
  (∀ req, req ∈ reqs → req_productId req ∈ ids) →
  orderItemsData (prisma.rows_in ps ids) reqs acc = inr (data, total) →
  ∀ req, req ∈ reqs → ∃ p, ps !! req_productId req = Some p ∧ req_quantity req ≤ stock p.
Proof.
  revert acc data total. induction reqs as [|r reqs IH]; intros acc data total Hids; simpl.
  - intros _ req Hin. by apply elem_of_nil in Hin.
  - rewrite find_rows_in by (apply Hids; left).
    destruct (ps !! req_productId r) as [p|] eqn:Hp; simpl; [|done].
    destruct (stock p <? req_quantity r) eqn:Hcmp; [done|].
    destruct (orderItemsData _ reqs _) as [e'|[data' total']] eqn:Hrest; [done|].
    intros _ req [->|Hin]%elem_of_cons.
    + exists p. split; [done|]. by apply Z.ltb_ge.
    + eapply IH; [intros; apply Hids; by right | exact Hrest | exact Hin].
Qed.

Lemma ordered_quantity_absent pid its :
  pid ∉ map productId its → ordered_quantity pid its = 0.
Proof.
  induction its as [|it its IH]; simpl; [done|].
  intros [Hne Hnot]%not_elem_of_cons. rewrite decide_False by done. by apply IH.
Qed.


(** What a created order is: the run that answers 201 leaves exactly the
    new PENDING order, built from pairwise distinct existing products
    whose stock covers the requested quantities. *)
Lemma createOrder_created env body w :
  res_status (createOrder env body w).1 = 201 →
  ∃ data,
    (createOrder env body w).2
    = mkWorld (products w)
              (<[uuid env := mkOrder (body_customerEmail body)
                                     (items_total PrimFloat.zero data) PENDING None data]>
                 (orders w))
              (trace w) ∧
    Forall2 (captures (products w)) (body_items body) data ∧
    NoDup (map req_productId (body_items body)) ∧
    ∀ req, req ∈ body_items body →
      ∃ p, products w !! req_productId req = Some p ∧ req_quantity req ≤ stock p.
Proof.
  intros Hcode.
  destruct (decide (length (prisma.rows_in (products w) (map req_productId (body_items body)))
                    = length (map req_productId (body_items body)))) as [Hlen|Hlen].
  2:{ unfold createOrder, createOrder_body, try_handler in Hcode.
      unfold bind at 1 in Hcode. unfold prisma.product_findMany at 1 in Hcode.
      apply Nat.eqb_neq in Hlen. by rewrite Hlen in Hcode. }
  rewrite (createOrder_after_lookup _ _ _ Hlen) in Hcode |- *.
  unfold try_handler in *.
  destruct (orderItemsData _ _ _) as [e|[data total]] eqn:Hdata.
  { apply orderItemsData_error in Hdata as (msg & code & -> & Hc). simpl in Hcode. lia. }
  pose proof (orderItemsData_within_stock _ _ _ _ _ _ (req_ids_elem _) Hdata) as Hstock.
  apply orderItemsData_ok in Hdata as [Hcap ->]; [|apply req_ids_elem].
  unfold bind, prisma.order_create in *. cbv beta in *.
  destruct (orders w !! uuid env); [done|]. cbn [items] in *.
  rewrite (captures_resolve _ _ _ Hcap) in *. simpl.
  exists data. split; [done|]. split; [done|]. split; [|done].
  by apply rows_in_length_inv in Hlen as [? _].
Qed.




(** ** The routes of [routes/orders] with their middleware *)

(** [ADMIN_API_KEY] of [config/env.ts] and the two format checks of the
    schema library. *)
Record RouterConfig := mkRouterConfig {
  ADMIN_API_KEY : string;
  is_uuid : string → bool;
  is_email : string → bool;
}.




(** [createOrderSchema] on a body of the right shape: at least one item,
    every product identifier a UUID, every quantity positive, and a
    well-formed email address. *)
Definition createOrderSchema (cfg : RouterConfig) (body : CreateOrderBody) : bool :=
  forallb (λ item, is_uuid cfg (req_productId item) && (0 <? req_quantity item))
          (body_items body)
  && (1 <=? length (body_items body))%nat
  && is_email cfg (body_customerEmail body).


(** [validate(schema)]: a body the schema rejects is logged and answered
    with 400 (the list of issues in the answer is left out); otherwise the
    next handler runs. *)
Definition validate (accepted : bool) (next : World → Response * World)
  (w : World) : Response * World :=
  if accepted then next w
  else (sendError "Validation failed" 400, record (Log LError "Validation error") w).

(** [router.post('/', validate(createOrderSchema), createOrder)] *)
Definition post_orders (cfg : RouterConfig) (env : Env) (body : CreateOrderBody)
  : World → Response * World :=
  validate (createOrderSchema cfg body) (createOrder env body).


(** An order stored through [POST /orders] has at least one item; each
    of its items references an existing product by a UUID and orders a
    positive quantity that the stock covered when the order was created. *)
Theorem post_orders_stored_items cfg env body w :
  res_status (post_orders cfg env body w).1 = 201 →
  ∃ o, orders (post_orders cfg env body w).2 !! uuid env = Some o ∧
       items o ≠ [] ∧
       ∀ it, it ∈ items o →
         is_uuid cfg (productId it) = true ∧
         ∃ p, products w !! productId it = Some p ∧ 1 ≤ quantity it ≤ stock p.
Proof.
  unfold post_orders, validate.
  destruct (createOrderSchema cfg body) eqn:Hschema; [|done].
  apply andb_prop in Hschema as [[Hitems Hlen]%andb_prop _].
  intros Hcode.
  destruct (createOrder_created _ _ _ Hcode) as (data & -> & Hcap & _ & Hstock).
  simpl. rewrite lookup_insert_eq. eexists. split; [done|]. simpl.
  split.
  - intros ->. apply Forall2_nil_inv_r in Hcap. rewrite Hcap in Hlen. done.
  - intros it Hit.
    destruct (proj1 (list_elem_of_lookup _ _) Hit) as [i Hi].
    destruct (Forall2_lookup_r _ _ _ _ _ Hcap Hi) as (req & Hreq & Hid & Hq & _).
    apply list_elem_of_lookup_2 in Hreq.
    rewrite forallb_forall in Hitems.
    specialize (Hitems req (proj1 (list_elem_of_In _ _) Hreq)).
    apply andb_prop in Hitems as [Huuid Hpos%Z.ltb_lt].
    destruct (Hstock req Hreq) as (p & Hp & Hle).
    rewrite Hid, Hq. split; [done|]. exists p. split; [done|]. lia.
Qed.

(** A configuration whose format checks stand in for the library's:
    identifiers start with ["prod-"], addresses are not empty. *)
Definition demo_config : RouterConfig :=
  mkRouterConfig "admin-secret" (String.prefix "prod-") (λ s, negb (String.eqb s "")).

Lemma post_orders_stored_items_witness :
  ∃ o, orders (post_orders demo_config demo.env (demo_body [("prod-a", 2)]) demo.store).2
         !! uuid demo.env = Some o ∧
       items o ≠ [] ∧
       ∀ it, it ∈ items o →
         is_uuid demo_config (productId it) = true ∧
         ∃ p, products demo.store !! productId it = Some p ∧ 1 ≤ quantity it ≤ stock p.
Proof.
  apply (post_orders_stored_items demo_config demo.env (demo_body [("prod-a", 2)]) demo.store).
  vm_compute; reflexivity.
Defined.





(** ** [controllers/categoryController.ts]: the slug of a category

    Strings are read as sequences of ASCII characters; on such strings
    the methods [toLowerCase], [trim] and the two regular-expression
    replacements of the source are the functions below. *)

Module slug.

Definition code (c : ascii) : nat := nat_of_ascii c.

(** The class [\s] (and what [trim] removes): tab, line feed, vertical
    tab, form feed, carriage return, space. *)
Definition is_space (c : ascii) : bool :=
  ((9 <=? code c) && (code c <=? 13) || (code c =? 32))%nat.

Definition lower (c : ascii) : ascii :=
  if ((65 <=? code c) && (code c <=? 90))%nat then ascii_of_nat (code c + 32) else c.

(** The class [[a-z0-9-]]. *)
Definition is_slug_char (c : ascii) : bool :=
  ((97 <=? code c) && (code c <=? 122) || (48 <=? code c) && (code c <=? 57)
   || (code c =? 45))%nat.

Fixpoint toLowerCase (s : string) : string :=
  match s with
  | EmptyString => EmptyString
  | String c rest => String (lower c) (toLowerCase rest)
  end.

Fixpoint trimStart (s : string) : string :=
  match s with
  | EmptyString => EmptyString
  | String c rest => if is_space c then trimStart rest else s
  end.

Fixpoint trimEnd (s : string) : string :=
  match s with
  | EmptyString => EmptyString
  | String c rest =>
      let rest' := trimEnd rest in
      if is_space c && String.eqb rest' "" then EmptyString else String c rest'
  end.

Definition trim (s : string) : string := trimEnd (trimStart s).

(** [s.replace(/\s+/g, '-')]: every maximal run of white space becomes one
    hyphen; [in_run] tells that the previous character was white space. *)
Fixpoint replace_spaces (in_run : bool) (s : string) : string :=
  match s with
  | EmptyString => EmptyString
  | String c rest =>
      if is_space c then
        if in_run then replace_spaces true rest
        else String "-" (replace_spaces true rest)
      else String c (replace_spaces false rest)
  end.

(** [s.replace(/[^a-z0-9-]/g, '')] *)
Fixpoint strip (s : string) : string :=
  match s with
  | EmptyString => EmptyString
  | String c rest => if is_slug_char c then String c (strip rest) else strip rest
  end.

(** The slug [createCategory] stores for a name and an optional slug. *)
Definition categorySlug (name : string) (slug : option string) : string :=
  if truthy slug && negb (String.eqb (trim (default "" slug)) "") then
    strip (replace_spaces false (toLowerCase (trim (default "" slug))))
  else
    strip (replace_spaces false (trim (toLowerCase name))).

End slug.

Record Category := mkCategory {
  cat_name : string;
  cat_slug : string;
}.

(** The answer of [createCategory], the categories table after it and the
    log entries it wrote.  [id] is the identifier of the new row; the
    table has a unique index on the slug, whose violation is P2002. *)
Definition createCategory (id name : string) (slug : option string)
  (categories : gmap string Category)
  : (Z * string) * gmap string Category * list Effect :=
  let categorySlug := slug.categorySlug name slug in
  if String.eqb categorySlug "" then
    ((400, "Category name must contain at least one alphanumeric character"),
     categories, [Log LError "Error in createCategory"])
  else if bool_decide (map_Exists (λ _ c, cat_slug c = categorySlug) categories) then
    ((400, "Category with this name or slug already exists"),
     categories,
     [Log LError "Error in createCategory";
      Log LWarn "Category unique constraint violation"])
  else if bool_decide (is_Some (categories !! id)) then
    ((400, "Category with this name or slug already exists"),
     categories,
     [Log LError "Error in createCategory";
      Log LWarn "Category unique constraint violation"])
  else
    ((201, "Category created successfully"),
     <[id := mkCategory name categorySlug]> categories, []).

Example slug_great_deals : slug.categorySlug "Great Deals!!" None = "great-deals".
Proof. reflexivity. Qed.

Example slug_given :
  slug.categorySlug "Books" (Some "  Sci-Fi &  Fantasy ") = "sci-fi--fantasy".
Proof. reflexivity. Qed.

(** Every character of [s] satisfies [P]. *)
Fixpoint all_chars (P : ascii → bool) (s : string) : bool :=
  match s with
  | EmptyString => true
  | String c rest => P c && all_chars P rest
  end.

Lemma strip_alphabet s : all_chars slug.is_slug_char (slug.strip s) = true.
Proof.
  induction s as [|c s IH]; simpl; [done|].
  destruct (slug.is_slug_char c) eqn:Hc; simpl; [by rewrite Hc|done].
Qed.

Lemma slug_char_not_space c : slug.is_slug_char c = true → slug.is_space c = false.
Proof. destruct c as [[] [] [] [] [] [] [] []]; by vm_compute. Qed.

Lemma slug_char_lower c : slug.is_slug_char c = true → slug.lower c = c.
Proof. destruct c as [[] [] [] [] [] [] [] []]; by vm_compute. Qed.

Section on_slugs.
Context (s : string) (Hs : all_chars slug.is_slug_char s = true).

Lemma toLowerCase_slug : slug.toLowerCase s = s.
Proof.
  induction s as [|c t IH]; simpl in *; [done|].
  apply andb_prop in Hs as [Hc Ht]. by rewrite (slug_char_lower _ Hc), IH.
Qed.

Lemma trimStart_slug : slug.trimStart s = s.
Proof.
  destruct s as [|c t]; simpl in *; [done|].
  apply andb_prop in Hs as [Hc _]. by rewrite (slug_char_not_space _ Hc).
Qed.

Lemma trimEnd_slug : slug.trimEnd s = s.
Proof.
  induction s as [|c t IH]; simpl in *; [done|].
  apply andb_prop in Hs as [Hc Ht]. by rewrite (slug_char_not_space _ Hc), IH.
Qed.

Lemma replace_spaces_slug b : slug.replace_spaces b s = s.
Proof.
  revert b. induction s as [|c t IH]; intros b; simpl in *; [done|].
  apply andb_prop in Hs as [Hc Ht]. by rewrite (slug_char_not_space _ Hc), IH.
Qed.

Lemma strip_slug : slug.strip s = s.
Proof.
  induction s as [|c t IH]; simpl in *; [done|].
  apply andb_prop in Hs as [Hc Ht]. by rewrite Hc, IH.
Qed.

End on_slugs.

Lemma categorySlug_all_chars name slug :
  all_chars slug.is_slug_char (slug.categorySlug name slug) = true.
Proof.
  unfold slug.categorySlug. destruct (_ && _); apply strip_alphabet.
Qed.

Lemma all_chars_elem P s c :
  all_chars P s = true → c ∈ String.list_ascii_of_string s → P c = true.
Proof.
  induction s as [|d s IH]; simpl.
  - intros _ Hin. by apply elem_of_nil in Hin.
  - intros [Hd Hs]%andb_prop [->|Hin]%elem_of_cons; [done|by apply IH].
Qed.

Lemma slug_char_alphabet c :
  slug.is_slug_char c = true →
  c ∈ String.list_ascii_of_string "abcdefghijklmnopqrstuvwxyz0123456789-".
Proof.
  intros Hc. apply (bool_decide_unpack _).
  revert Hc. destruct c as [[] [] [] [] [] [] [] []]; by vm_compute.
Qed.

(** The slug of a category consists of lower-case letters, digits and
    hyphens only, whatever name and slug the request carries. *)
Theorem categorySlug_alphabet name slug :
  Forall (λ c, c ∈ String.list_ascii_of_string "abcdefghijklmnopqrstuvwxyz0123456789-")
         (String.list_ascii_of_string (slug.categorySlug name slug)).
Proof.
  apply Forall_forall. intros c Hin. apply slug_char_alphabet.
  exact (all_chars_elem _ _ _ (categorySlug_all_chars name slug) Hin).
Qed.

(** Deriving a slug from a derived slug gives it back: a stored slug is
    its own normal form. *)
Theorem categorySlug_idempotent name slug :
  slug.categorySlug (slug.categorySlug name slug) None = slug.categorySlug name slug.
Proof.
  pose proof (categorySlug_all_chars name slug) as H.
  unfold slug.categorySlug at 1. simpl. unfold slug.trim.
  rewrite (toLowerCase_slug _ H), (trimStart_slug _ H), (trimEnd_slug _ H).
  by rewrite (replace_spaces_slug _ H), (strip_slug _ H).
Qed.

(** *** Names with a letter or a digit *)

Definition is_alphanumeric (c : ascii) : Prop :=
  c ∈ String.list_ascii_of_string
        "abcdefghijklmnopqrstuvwxyzABCDEFGHIJKLMNOPQRSTUVWXYZ0123456789".

Lemma alphanumeric_lower c :
  is_alphanumeric c →
  slug.is_slug_char (slug.lower c) = true ∧ slug.is_space (slug.lower c) = false.
Proof.
  unfold is_alphanumeric. simpl. intros Hin.
  repeat (apply elem_of_cons in Hin as [->|Hin]; [by vm_compute|]).
  by apply elem_of_nil in Hin.
Qed.

Lemma toLowerCase_elem c s :
  c ∈ String.list_ascii_of_string s →
  slug.lower c ∈ String.list_ascii_of_string (slug.toLowerCase s).
Proof.
  induction s as [|d s IH]; simpl; [by intros ?%elem_of_nil|].
  intros [->|Hin]%elem_of_cons; [by left | right; by apply IH].
Qed.

Section kept_characters.
Context (c : ascii) (Hc : slug.is_space c = false).

Lemma trimStart_elem s :
  c ∈ String.list_ascii_of_string s → c ∈ String.list_ascii_of_string (slug.trimStart s).
Proof.
  induction s as [|d s IH]; simpl; [by intros ?%elem_of_nil|].
  destruct (slug.is_space d) eqn:Hd; [|done].
  intros [->|Hin]%elem_of_cons; [congruence | by apply IH].
Qed.

Lemma trimEnd_elem s :
  c ∈ String.list_ascii_of_string s → c ∈ String.list_ascii_of_string (slug.trimEnd s).
Proof.
  induction s as [|d s IH]; simpl; [by intros ?%elem_of_nil|].
  intros Hin.
  destruct (slug.is_space d && String.eqb (slug.trimEnd s) "") eqn:Hd.
  - apply andb_prop in Hd as [Hd Hempty%String.eqb_eq].
    apply elem_of_cons in Hin as [->|Hin]; [congruence|].
    apply IH in Hin. rewrite Hempty in Hin. by apply elem_of_nil in Hin.
  - simpl. apply elem_of_cons in Hin as [->|Hin]; [by left | right; by apply IH].
Qed.

Lemma replace_spaces_elem b s :
  c ∈ String.list_ascii_of_string s →
  c ∈ String.list_ascii_of_string (slug.replace_spaces b s).
Proof.
  revert b. induction s as [|d s IH]; intros b; simpl; [by intros ?%elem_of_nil|].
  intros Hin. destruct (slug.is_space d) eqn:Hd.
  - apply elem_of_cons in Hin as [->|Hin]; [congruence|].
    destruct b; [by apply IH | simpl; right; by apply IH].
  - simpl. apply elem_of_cons in Hin as [->|Hin]; [by left | right; by apply IH].
Qed.

End kept_characters.

Lemma strip_elem c s :
  slug.is_slug_char c = true →
  c ∈ String.list_ascii_of_string s → c ∈ String.list_ascii_of_string (slug.strip s).
Proof.
  intros Hc. induction s as [|d s IH]; simpl; [by intros ?%elem_of_nil|].
  intros [->|Hin]%elem_of_cons.
  - rewrite Hc. by left.
  - destruct (slug.is_slug_char d); [right|]; by apply IH.
Qed.

(** A name that contains a letter or a digit has a slug that is not
    empty, so the check of [createCategory] on the slug lets it pass. *)
Theorem categorySlug_of_alphanumeric_name name c :
  c ∈ String.list_ascii_of_string name →
  is_alphanumeric c →
  slug.categorySlug name None ≠ "".
Proof.
  intros Hin [Hslug Hspace]%alphanumeric_lower.
  assert (slug.lower c ∈ String.list_ascii_of_string (slug.categorySlug name None)) as Helem.
  { unfold slug.categorySlug, slug.trim. simpl.
    apply strip_elem; [done|]. apply replace_spaces_elem; [done|].
    apply trimEnd_elem; [done|]. apply trimStart_elem; [done|].
    by apply toLowerCase_elem. }
  intros Hempty. rewrite Hempty in Helem. by apply elem_of_nil in Helem.
Qed.

Lemma categorySlug_of_alphanumeric_name_witness :
  slug.categorySlug "  4K !!" None ≠ "" ∧ slug.categorySlug "  4K !!" None = "4k-".
Proof.
  split; [|reflexivity].
  apply (categorySlug_of_alphanumeric_name "  4K !!" "K"%char).
  - apply (bool_decide_unpack _). by vm_compute.
  - apply (bool_decide_unpack _). by vm_compute.
Defined.



(** A name of punctuation only is refused; with white space between the
    punctuation the derived slug is a hyphen and the category is stored. *)
Example createCategory_no_alphanumeric :
  createCategory "cat-1" "!!!" None ∅
  = ((400, "Category name must contain at least one alphanumeric character"),
     ∅, [Log LError "Error in createCategory"]) ∧
  createCategory "cat-1" "!!! ???" None ∅
  = ((201, "Category created successfully"),
     {["cat-1" := mkCategory "!!! ???" "-"]}, []).
Proof. split; reflexivity. Qed.

(** ** The origin decision of the CORS options

    [corsOptions.origin] comes in two variants: the one of
    [config/cors.ts], and one that filters the list of allowed origins,
    tests the origin alone for a Vercel domain and has a fallback for an
    unset client URL.  [true] allows the origin, [false] is the
    ["Not allowed by CORS"] error.  [CLIENT_URL] and [NODE_ENV] are the
    values of [config/env.ts]. *)

(** [s.includes(sub)] *)
Fixpoint includes (sub s : string) : bool :=
  String.prefix sub s ||
  match s with
  | EmptyString => false
  | String _ rest => includes sub rest
  end.

Module cors.

Definition isVercelDomain (url : string) : bool :=
  includes "vercel.app" url || includes "vercel.com" url.

Definition origin (CLIENT_URL NODE_ENV : string) (origin : option string) : bool :=
  let allowedOrigins :=
    [CLIENT_URL; "http://localhost:3000"; "http://localhost:3001";
     "http://127.0.0.1:3000"; "http://localhost:5555"] in
  if negb (truthy origin) then true
  else
    let origin := default "" origin in
    if bool_decide (origin ∈ allowedOrigins) then true
    else if isVercelDomain CLIENT_URL && isVercelDomain origin then true
    else if String.eqb NODE_ENV "development" then true
    else false.

End cors.

Module cors_fallback.

Definition isVercelDomain (url : string) : bool :=
  if String.eqb url "" then false
  else includes "vercel.app" url || includes "vercel.com" url.

Definition origin (CLIENT_URL NODE_ENV : string) (origin : option string) : bool :=
  let allowedOrigins :=
    filter (λ s : string, s ≠ "")
           [CLIENT_URL; "http://localhost:3000"; "http://localhost:3001";
            "http://127.0.0.1:3000"; "http://localhost:5555"] in
  if negb (truthy origin) then true
  else
    let origin := default "" origin in
    if bool_decide (origin ∈ allowedOrigins) then true
    else if isVercelDomain origin then true
    else if String.eqb NODE_ENV "development" then true
    else if String.eqb CLIENT_URL "" || String.eqb CLIENT_URL "http://localhost:3001" then
      if isVercelDomain origin then true else false
    else false.

End cors_fallback.

(** [url] names a Vercel domain: it contains ["vercel.app"] or
    ["vercel.com"] somewhere. *)
Definition names_vercel (url : string) : Prop :=
  ∃ pre post, url = pre +:+ "vercel.app" +:+ post ∨ url = pre +:+ "vercel.com" +:+ post.

Lemma append_nil s : "" +:+ s = s.
Proof. reflexivity. Qed.

Lemma append_cons c s t : String c s +:+ t = String c (s +:+ t).
Proof. reflexivity. Qed.

Lemma prefix_append sub s :
  String.prefix sub s = true ↔ ∃ post, s = sub +:+ post.
Proof.
  revert s. induction sub as [|a sub IH]; intros s.
  - split; [intros _; by exists s | intros _; by destruct s].
  - destruct s as [|b s]; simpl.
    { split; [done|]. intros [post H]. by rewrite append_cons in H. }
    destruct (ascii_dec a b) as [->|Hne].
    + rewrite IH. split; intros [post H]; exists post; rewrite append_cons in *;
        [by rewrite H | by injection H].
    + split; [done|]. intros [post H]. rewrite append_cons in H.
      injection H as H _. by symmetry in H.
Qed.

Lemma includes_append sub s :
  includes sub s = true ↔ ∃ pre post, s = pre +:+ sub +:+ post.
Proof.
  induction s as [|c s IH].
  - cbn [includes]. rewrite orb_false_r, prefix_append. split.
    + intros [post H]. by exists "", post.
    + intros ([|? ?] & post & H); [by exists post|]. by rewrite append_cons in H.
  - cbn [includes]. rewrite orb_true_iff, IH, prefix_append. split.
    + intros [[post H]|(pre & post & H)]; [by exists "", post|].
      exists (String c pre), post. by rewrite append_cons, H.
    + intros ([|d pre] & post & H); [left; by exists post|].
      right. exists pre, post. rewrite append_cons in H. by injection H.
Qed.

Lemma includes_vercel url :
  includes "vercel.app" url || includes "vercel.com" url = true ↔ names_vercel url.
Proof.
  unfold names_vercel. rewrite orb_true_iff, !includes_append. split.
  - intros [(pre & post & H)|(pre & post & H)]; exists pre, post; [by left | by right].
  - intros (pre & post & [H|H]); [left | right]; by exists pre, post.
Qed.

Lemma cors_isVercelDomain url : cors.isVercelDomain url = true ↔ names_vercel url.
Proof. apply includes_vercel. Qed.

Lemma cors_fallback_isVercelDomain url :
  cors_fallback.isVercelDomain url = true ↔ names_vercel url.
Proof.
  unfold cors_fallback.isVercelDomain.
  destruct (String.eqb_spec url "") as [->|_]; [|apply includes_vercel].
  split; [done|]. intros (pre & post & [H|H]); by destruct pre.
Qed.

(** [config/cors.ts]: a request is allowed exactly when it carries no
    origin, or its origin is the client URL or one of the four local
    addresses, or the client URL and the origin both name a Vercel domain,
    or the server runs in development mode. *)
Theorem cors_origin_allowed_iff CLIENT_URL NODE_ENV origin :
  cors.origin CLIENT_URL NODE_ENV origin = true ↔
  origin = None ∨ origin = Some "" ∨
  ∃ o, origin = Some o ∧
       (o = CLIENT_URL ∨
        o ∈ ["http://localhost:3000"; "http://localhost:3001";
             "http://127.0.0.1:3000"; "http://localhost:5555"] ∨
        (names_vercel CLIENT_URL ∧ names_vercel o) ∨
        NODE_ENV = "development").
Proof.
  unfold cors.origin.
  destruct origin as [o|]; simpl; [|by split; [left|]].
  destruct (String.eqb_spec o "") as [->|Hne]; simpl; [by split; [right; left|]|].
  split.
  - intros H. do 2 right. exists o. split; [done|].
    destruct (bool_decide _) eqn:Hin.
    { apply bool_decide_eq_true in Hin.
      apply elem_of_cons in Hin as [->|Hin]; [by left | right; by left]. }
    destruct (cors.isVercelDomain CLIENT_URL && cors.isVercelDomain o) eqn:Hv.
    { apply andb_prop in Hv as [?%cors_isVercelDomain ?%cors_isVercelDomain].
      by do 2 right; left. }
    destruct (String.eqb_spec NODE_ENV "development") as [->|]; [by do 3 right | done].
  - intros [?|[?|(o' & [= <-] & H)]]; [done|congruence|].
    destruct (bool_decide _) eqn:Hin; [done|].
    apply bool_decide_eq_false in Hin.
    destruct H as [-> | [H | [[Ha%cors_isVercelDomain Hb%cors_isVercelDomain] | ->]]].
    + exfalso. apply Hin. by left.
    + exfalso. apply Hin. by right.
    + by rewrite Ha, Hb.
    + destruct (_ && _); [done|]. by rewrite String.eqb_refl.
Qed.

(** The variant with the fallback: a request is allowed exactly when it
    carries no origin, or its origin is the client URL or one of the four
    local addresses, or names a Vercel domain, or the server runs in
    development mode; the fallback for an unset client URL never allows
    anything more. *)
Theorem cors_fallback_origin_allowed_iff CLIENT_URL NODE_ENV origin :
  cors_fallback.origin CLIENT_URL NODE_ENV origin = true ↔
  origin = None ∨ origin = Some "" ∨
  ∃ o, origin = Some o ∧
       (o = CLIENT_URL ∨
        o ∈ ["http://localhost:3000"; "http://localhost:3001";
             "http://127.0.0.1:3000"; "http://localhost:5555"] ∨
        names_vercel o ∨
        NODE_ENV = "development").
Proof.
  unfold cors_fallback.origin.
  destruct origin as [o|]; simpl; [|by split; [left|]].
  destruct (String.eqb_spec o "") as [->|Hne]; simpl; [by split; [right; left|]|].
  split.
  - intros H. do 2 right. exists o. split; [done|].
    destruct (bool_decide _) eqn:Hin.
    { apply bool_decide_eq_true in Hin.
      apply list_elem_of_filter in Hin as [_ [->|Hin]%elem_of_cons]; [by left|].
      right. by left. }
    destruct (cors_fallback.isVercelDomain o) eqn:Hv;
      [apply cors_fallback_isVercelDomain in Hv; by do 2 right; left|].
    destruct (String.eqb_spec NODE_ENV "development") as [->|]; [by do 3 right|].
    by destruct (_ || _).
  - intros [?|[?|(o' & [= <-] & H)]]; [done|congruence|].
    destruct (bool_decide _) eqn:Hin; [done|].
    apply bool_decide_eq_false in Hin.
    destruct H as [-> | [H | [Ha%cors_fallback_isVercelDomain | ->]]].
    + exfalso. apply Hin. apply list_elem_of_filter. split; [done|]. by left.
    + exfalso. apply Hin. apply list_elem_of_filter. split; [|by right].
      repeat (apply elem_of_cons in H as [->|H]; [done|]). by apply elem_of_nil in H.
    + by rewrite Ha.
    + destruct (cors_fallback.isVercelDomain o); [done|]. by rewrite String.eqb_refl.
Qed.

(** Whatever [config/cors.ts] allows, the variant with the fallback
    allows too; a Vercel origin under a client URL that is not one shows
    that the converse fails. *)
Theorem cors_fallback_allows_more :
  (∀ CLIENT_URL NODE_ENV origin,
     cors.origin CLIENT_URL NODE_ENV origin = true →
     cors_fallback.origin CLIENT_URL NODE_ENV origin = true) ∧
  cors.origin "https://shop.example.com" "production"
              (Some "https://preview.vercel.app") = false ∧
  cors_fallback.origin "https://shop.example.com" "production"
                       (Some "https://preview.vercel.app") = true.
Proof.
  split; [|split; reflexivity].
  intros CLIENT_URL NODE_ENV origin.
  unfold cors.origin, cors_fallback.origin.
  destruct origin as [o|]; simpl; [|done].
  destruct (String.eqb_spec o "") as [->|Hne]; simpl; [done|].
  unfold cors.isVercelDomain, cors_fallback.isVercelDomain.
  assert (String.eqb o "" = false) as -> by by apply String.eqb_neq.
  destruct (bool_decide (o ∈ [CLIENT_URL; _; _; _; _])) eqn:Hin.
  { apply bool_decide_eq_true in Hin. intros _.
    rewrite bool_decide_eq_true_2; [done|]. by apply list_elem_of_filter. }
  destruct (includes "vercel.app" o || includes "vercel.com" o).
  { intros _. by case_match. }
  rewrite andb_false_r.
  destruct (String.eqb NODE_ENV "development"); [|done].
  intros _. by case_match.
Qed.

Lemma cors_fallback_allows_more_witness :
  cors.origin "https://shop.vercel.app" "production" (Some "https://preview.vercel.app") = true ∧
  cors_fallback.origin "https://shop.vercel.app" "production"
                       (Some "https://preview.vercel.app") = true.
Proof.
  assert (cors.origin "https://shop.vercel.app" "production"
                      (Some "https://preview.vercel.app") = true) as H by reflexivity.
  split; [exact H|].
  exact (proj1 cors_fallback_allows_more _ _ _ H).
Defined.

(** ** Stock is checked at creation and lowered at settlement *)

(** The order [createOrder] stores for a single item. *)
Definition single_order (email pid : string) (p : Product) (q : Z) : Order :=
  mkOrder email
          (PrimFloat.add PrimFloat.zero (PrimFloat.mul (price p) (Number.of_Z q)))
          PENDING None [mkOrderItem pid (price p) q].

Lemma createOrder_single env email pid p q ps os tr :
  ps !! pid = Some p →
  q ≤ stock p →
  os !! uuid env = None →
  (createOrder env (mkCreateOrderBody [mkItemRequest pid q] email) (mkWorld ps os tr)).2
  = mkWorld ps (<[uuid env := single_order email pid p q]> os) tr.
Proof.
  intros Hp Hq Hfresh.
  rewrite createOrder_after_lookup.
  2:{ simpl. apply rows_in_length_all; [apply NoDup_singleton|].
      intros id ->%list_elem_of_singleton. by rewrite Hp. }
  unfold try_handler. simpl.
  rewrite find_rows_in by constructor.
  rewrite Hp. simpl. apply Z.ltb_ge in Hq. rewrite Hq.
  unfold bind, prisma.order_create. simpl. rewrite Hfresh.
  unfold items_resolve. simpl. rewrite Hp. simpl. done.
Qed.

Lemma webhook_settles env req event oid o ps os tr :
  verified env req event →
  ev_type event = "payment_intent.succeeded" →
  metadata_orderId event = Some oid →
  oid ≠ "" →
  os !! oid = Some o →
  status o = PENDING →
  items_resolve ps (items o) = true →
  ∃ tr', (handleStripeWebhook env req (mkWorld ps os tr)).2
         = mkWorld (settle_stock (items o) ps) (<[oid := set_status PAID o]> os) tr'.
Proof.
  intros Hver Hty Hmeta Hoid Ho Hst Hres.
  rewrite (webhook_verified _ _ _ _ Hver), Hty. simpl. unfold try_handler, bind.
  rewrite (on_payment_succeeded_settle _ _ _ _ _ _ _ Hmeta Hoid Ho Hst Hres).
  by eexists.
Qed.

(** Two orders that each fit the stock but not together can both be
    created, because creation only compares with the stock, and both be
    settled, because settlement does not compare at all: the stock of the
    product ends below zero. *)
Theorem two_orders_oversell env1 env2 env3 env4 req1 req2 ev1 ev2 email1 email2 pid p q w :
  products w !! pid = Some p →
  q ≤ stock p →
  stock p < 2 * q →
  orders w !! uuid env1 = None →
  orders w !! uuid env2 = None →
  uuid env1 ≠ uuid env2 →
  uuid env1 ≠ "" →
  uuid env2 ≠ "" →
  verified env3 req1 ev1 →
  ev_type ev1 = "payment_intent.succeeded" →
  metadata_orderId ev1 = Some (uuid env1) →
  verified env4 req2 ev2 →
  ev_type ev2 = "payment_intent.succeeded" →
  metadata_orderId ev2 = Some (uuid env2) →
  ∃ p', products (perform_all
                    [(env1, CreateOrder (mkCreateOrderBody [mkItemRequest pid q] email1));
                     (env2, CreateOrder (mkCreateOrderBody [mkItemRequest pid q] email2));
                     (env3, StripeWebhook req1);
                     (env4, StripeWebhook req2)] w) !! pid = Some p' ∧
        stock p' = stock p - 2 * q ∧ stock p' < 0.
Proof.
  intros Hp Hq Hover Hf1 Hf2 Hne Hn1 Hn2 Hv1 Ht1 Hm1 Hv2 Ht2 Hm2.
  destruct w as [ps os tr]. unfold perform_all. simpl in *.
  rewrite (createOrder_single _ _ _ _ _ _ _ _ Hp Hq Hf1).
  rewrite (createOrder_single _ _ _ _ _ _ _ _ Hp Hq);
    [|by rewrite lookup_insert_ne].
  assert (∀ ps', is_Some (ps' !! pid) →
            items_resolve ps' [mkOrderItem pid (price p) q] = true) as Hres.
  { intros ps' Hsome. unfold items_resolve. simpl.
    by rewrite bool_decide_eq_true_2. }
  destruct (webhook_settles env3 req1 ev1 (uuid env1) (single_order email1 pid p q) ps
              (<[uuid env2 := single_order email2 pid p q]>
                 (<[uuid env1 := single_order email1 pid p q]> os)) tr)
    as [tr1 ->]; try done.
  { rewrite lookup_insert_ne by done. by rewrite lookup_insert_eq. }
  { apply Hres. by rewrite Hp. }
  destruct (webhook_settles env4 req2 ev2 (uuid env2) (single_order email2 pid p q)
              (settle_stock (items (single_order email1 pid p q)) ps)
              (<[uuid env1 := set_status PAID (single_order email1 pid p q)]>
                 (<[uuid env2 := single_order email2 pid p q]>
                    (<[uuid env1 := single_order email1 pid p q]> os))) tr1)
    as [tr2 ->]; try done.
  { rewrite lookup_insert_ne by done. by rewrite lookup_insert_eq. }
  { apply Hres. rewrite settle_stock_lookup, Hp. done. }
  cbn [products]. rewrite !settle_stock_lookup, Hp.
  unfold ordered_quantity. simpl. rewrite !decide_True by done.
  eexists. split; [reflexivity|]. simpl. lia.
Qed.

(** A configuration that gives new orders the identifier [id] and whose
    processor reports the payment of the order named by the body. *)
Definition paying_env (id : string) : Env :=
  mkEnv "whsec_test"
        (λ body sig _, if String.eqb sig "valid"
                       then inr (demo.event_for "payment_intent.succeeded" body)
                       else inl "signature mismatch")
        (λ _, inr (mkIntent "pi_1" "pi_1_secret"))
        (λ _, None)
        id.

Lemma two_orders_oversell_witness :
  ∃ p', products (perform_all
                    [(paying_env "order-5",
                      CreateOrder (mkCreateOrderBody [mkItemRequest "prod-a" 3] "a@example.com"));
                     (paying_env "order-6",
                      CreateOrder (mkCreateOrderBody [mkItemRequest "prod-a" 3] "b@example.com"));
                     (paying_env "", StripeWebhook (demo.request "order-5"));
                     (paying_env "", StripeWebhook (demo.request "order-6"))]
                    demo.store) !! "prod-a" = Some p' ∧
        stock p' = stock demo.widget - 2 * 3 ∧ stock p' < 0.
Proof.
  apply (two_orders_oversell (paying_env "order-5") (paying_env "order-6")
           (paying_env "") (paying_env "")
           (demo.request "order-5") (demo.request "order-6")
           (demo.event_for "payment_intent.succeeded" "order-5")
           (demo.event_for "payment_intent.succeeded" "order-6")
           "a@example.com" "b@example.com" "prod-a" demo.widget 3 demo.store).
  - vm_compute; reflexivity.
  - simpl; lia.
  - simpl; lia.
  - vm_compute; reflexivity.
  - vm_compute; reflexivity.
  - discriminate.
  - discriminate.
  - discriminate.
  - split; [reflexivity | split; [discriminate | reflexivity]].
  - reflexivity.
  - reflexivity.
  - split; [reflexivity | split; [discriminate | reflexivity]].
  - reflexivity.
  - reflexivity.
Defined.

(** ** Settlement in explicit terms *)

(** With pairwise distinct products, the items order of each referenced
    product exactly the quantity of its item. *)
Lemma ordered_quantity_item its it :
  NoDup (map productId its) → it ∈ its →
  ordered_quantity (productId it) its = quantity it.
Proof.
  induction its as [|x its IH]; simpl.
  - intros _ Hin. by apply elem_of_nil in Hin.
  - intros [Hnotin Hnd]%NoDup_cons [->|Hin]%elem_of_cons.
    + rewrite decide_True by done. rewrite ordered_quantity_absent by done. lia.
    + rewrite decide_False; [by apply IH|].
      intros Heq. apply Hnotin. rewrite Heq. by apply (list_elem_of_fmap_2 productId).
Qed.

Lemma settle_stock_rows its ps pid :
  settle_stock its ps !! pid
  = (λ p, mkProduct (name p) (description p) (price p) (imageUrl p)
                    (stock p - ordered_quantity pid its) (categoryId p))
      <$> ps !! pid.
Proof. by rewrite settle_stock_lookup. Qed.

Lemma settle_stock_item its ps it :
  NoDup (map productId its) → it ∈ its →
  stock <$> settle_stock its ps !! productId it
  = (λ p, stock p - quantity it) <$> ps !! productId it.
Proof.
  intros Hnd Hin. rewrite settle_stock_rows, (ordered_quantity_item _ _ Hnd Hin).
  by destruct (ps !! productId it).
Qed.

(** Items that all reference a product of the table resolve. *)
Lemma items_resolve_all (ps : gmap string Product) (its : list OrderItem) :
  (∀ it, it ∈ its → is_Some (ps !! productId it)) → items_resolve ps its = true.
Proof.
  intros Hall. unfold items_resolve. apply forallb_forall. intros it Hin.
  apply bool_decide_eq_true_2, Hall, list_elem_of_In, Hin.
Qed.

(** C1: a verified [payment_intent.succeeded] event whose [metadata.orderId]
    names an order in PENDING status (the items of which reference existing
    products, as the foreign key guarantees) is answered with the 200
    acknowledgement.  Afterwards the order is the same row with status
    PAID; every product is the same row with its stock lowered by the sum
    of the quantities of the order's items that reference it, which for
    items on pairwise distinct products is exactly the quantity of the
    item; and the trace has grown by one attempt to send the confirmation
    mail, made with the updated order, and the log entry of its outcome.
    The tables are the same whether the mail was delivered or not. *)
Theorem webhook_succeeded_settles_pending env req event oid o w :
  verified env req event →
  ev_type event = "payment_intent.succeeded" →
  metadata_orderId event = Some oid →
  oid ≠ "" →
  orders w !! oid = Some o →
  status o = PENDING →
  (∀ it, it ∈ items o → is_Some (products w !! productId it)) →
  ∃ w',
    handleStripeWebhook env req w
    = (mkResponse 200 true "Webhook processed successfully" DReceived, w') ∧
    orders w'
    = <[oid := mkOrder (customerEmail o) (totalAmount o) PAID
                       (stripePaymentIntentId o) (items o)]> (orders w) ∧
    (∀ pid, products w' !! pid
            = (λ p, mkProduct (name p) (description p) (price p) (imageUrl p)
                              (stock p - ordered_quantity pid (items o)) (categoryId p))
                <$> products w !! pid) ∧
    (NoDup (map productId (items o)) →
     ∀ it, it ∈ items o →
       stock <$> products w' !! productId it
       = (λ p, stock p - quantity it) <$> products w !! productId it) ∧
    trace w'
    = trace w ++
      webhook_mail_trace env oid
        (mkMail (customerEmail o)
                ("Order Confirmation - Order #" +:+ String.substring 0 8 oid)
                (mkOrderView oid
                   (mkOrder (customerEmail o) (totalAmount o) PAID
                            (stripePaymentIntentId o) (items o))
                   (map (λ it, products w !! productId it) (items o)))).
Proof.
  intros Hver Hty Hmeta Hoid Ho Hst Hres%items_resolve_all.
  destruct w as [ps os tr]. simpl in *.
  rewrite (webhook_verified _ _ _ _ Hver), Hty. simpl.
  unfold try_handler, bind.
  rewrite (on_payment_succeeded_settle _ _ _ _ _ _ _ Hmeta Hoid Ho Hst Hres).
  eexists. split; [reflexivity|]. simpl.
  split; [done|]. split; [intros pid; apply settle_stock_rows|].
  split; [intros Hnd it Hin; by apply settle_stock_item|]. done.
Qed.

(** The store of [demo] with one more order, whose first item references
    a product that is not in the table. *)
Definition dangling_order : Order :=
  mkOrder "buyer@example.com" 21%float PENDING None
          [mkOrderItem "prod-x" 1%float 1; mkOrderItem "prod-a" 10%float 2].

Definition dangling_store : World :=
  mkWorld (products demo.store) (<["order-7" := dangling_order]> (orders demo.store)) [].

(** On the demo store, whose transport refuses the mail: two units of
    the product with five in stock are paid, three remain, the order is
    PAID and the answer is 200. *)
Lemma webhook_succeeded_settles_pending_witness :
  ∃ w',
    handleStripeWebhook demo.env (demo.request "succeeded order-1") demo.store
    = (mkResponse 200 true "Webhook processed successfully" DReceived, w') ∧
    status <$> orders w' !! "order-1" = Some PAID ∧
    stock <$> products w' !! "prod-a" = Some 3 ∧
    stock <$> products w' !! "prod-b" = Some 1 ∧
    ∃ mail, mail_to mail = "buyer@example.com" ∧
            trace w' = [MailAttempt mail false;
                        Log LError "Failed to send confirmation email"].
Proof.
  destruct (webhook_succeeded_settles_pending demo.env (demo.request "succeeded order-1")
              (demo.event_for "payment_intent.succeeded" "order-1") "order-1"
              demo.pending_order demo.store)
    as (w' & Hrun & Horders & Hstock & _ & Htrace).
  - split; [reflexivity | split; [discriminate | reflexivity]].
  - reflexivity.
  - reflexivity.
  - discriminate.
  - vm_compute; reflexivity.
  - reflexivity.
  - intros it [->|Hin%elem_of_nil]%elem_of_cons; [|done]. by eexists.
  - exists w'. split; [exact Hrun|].
    rewrite Horders, !Hstock, Htrace.
    split; [vm_compute; reflexivity|]. split; [vm_compute; reflexivity|].
    split; [vm_compute; reflexivity|].
    eexists. split; [|vm_compute; reflexivity]. reflexivity.
Defined.

(** C9: an admin override of an existing order to a status of the
    enumeration is answered with 200 and the order in its new status.  The
    stock loop and the confirmation mail run exactly when the target is
    PAID and the order was not PAID before.  Then every product that
    exists is the same row with its stock lowered by the sum of the
    quantities of the items that reference it (for items on pairwise
    distinct products: by the quantity of the item); every item whose
    update fails, its product being absent, leaves its own error entry in
    the log and does not stop the updates of the other items nor undo the
    new status; and the attempt to send the mail follows, a failure of
    which leaves one more error entry and nothing else.  In every other
    case the products and the trace are as before. *)
Theorem updateOrderStatus_override env id s st o w :
  orders w !! id = Some o →
  (s, st) ∈ status_names →
  ∃ v w',
    updateOrderStatus env id s w
    = (mkResponse 200 true "Order status updated successfully" (DOrder v), w') ∧
    ov_order v
    = mkOrder (customerEmail o) (totalAmount o) st (stripePaymentIntentId o) (items o) ∧
    orders w'
    = <[id := mkOrder (customerEmail o) (totalAmount o) st
                      (stripePaymentIntentId o) (items o)]> (orders w) ∧
    if decide (st = PAID ∧ status o ≠ PAID) then
      (∀ pid, products w' !! pid
              = (λ p, mkProduct (name p) (description p) (price p) (imageUrl p)
                                (stock p - ordered_quantity pid (items o)) (categoryId p))
                  <$> products w !! pid) ∧
      (NoDup (map productId (items o)) →
       ∀ it, it ∈ items o →
         stock <$> products w' !! productId it
         = (λ p, stock p - quantity it) <$> products w !! productId it) ∧
      trace w'
      = trace w
        ++ map (λ it, Log LError ("Failed to update stock for product " +:+ productId it))
               (filter (λ it, products w !! productId it = None) (items o))
        ++ admin_mail_trace env
             (mkMail (customerEmail o)
                     ("Order Confirmation - Order #" +:+ String.substring 0 8 id)
                     (mkOrderView id
                        (mkOrder (customerEmail o) (totalAmount o) st
                                 (stripePaymentIntentId o) (items o))
                        (map (λ it, products w !! productId it) (items o))))
    else products w' = products w ∧ trace w' = trace w.
Proof.
  intros Ho Hs%status_names_of_string. destruct w as [ps os tr]. simpl in *.
  rewrite (updateOrderStatus_run _ _ _ _ _ _ _ _ Ho Hs).
  eexists _, _. split; [reflexivity|]. split; [reflexivity|].
  unfold overridden.
  destruct (decide (st = PAID ∧ status o ≠ PAID)) as [[-> Hprev]|Hno].
  - rewrite bool_decide_eq_true_2 by done.
    rewrite (bool_decide_eq_false_2 _ Hprev). simpl.
    split; [done|]. split; [intros pid; apply settle_stock_rows|].
    split; [intros Hnd it Hin; by apply settle_stock_item|]. done.
  - assert (bool_decide (st = PAID) && negb (bool_decide (status o = PAID)) = false) as ->.
    { apply andb_false_iff. destruct (decide (st = PAID)) as [->|];
        [right | left; by apply bool_decide_eq_false_2].
      rewrite bool_decide_eq_true_2; [done|].
      destruct (decide (status o = PAID)); [done | tauto]. }
    done.
Qed.

(** Two overrides to PAID.  On the demo store: the stock of the ordered
    product goes from five to three and the refused mail is logged.  On
    the store with the dangling item: the update of the absent product is
    logged, the other item is still applied (five to three), the order is
    PAID and the answer is 200. *)
Lemma updateOrderStatus_override_witness :
  (∃ v w',
     updateOrderStatus demo.env "order-1" "PAID" demo.store
     = (mkResponse 200 true "Order status updated successfully" (DOrder v), w') ∧
     status <$> orders w' !! "order-1" = Some PAID ∧
     stock <$> products w' !! "prod-a" = Some 3 ∧
     ∃ mail, trace w' = [MailAttempt mail false;
                         Log LError "Failed to send confirmation email"]) ∧
  (∃ v w',
     updateOrderStatus demo.env "order-7" "PAID" dangling_store
     = (mkResponse 200 true "Order status updated successfully" (DOrder v), w') ∧
     status <$> orders w' !! "order-7" = Some PAID ∧
     stock <$> products w' !! "prod-a" = Some 3 ∧
     products w' !! "prod-x" = None ∧
     trace w' = [Log LError "Failed to update stock for product prod-x";
                 Log LError "Failed to send confirmation email"]).
Proof.
  split.
  - destruct (updateOrderStatus_override demo.env "order-1" "PAID" PAID
                demo.pending_order demo.store)
      as (v & w' & Hrun & _ & Horders & Hsettle);
      [vm_compute; reflexivity | by right; left |].
    rewrite decide_True in Hsettle by (split; [done | discriminate]).
    destruct Hsettle as (Hstock & _ & Htrace).
    exists v, w'. split; [exact Hrun|]. rewrite Horders, Hstock, Htrace.
    split; [vm_compute; reflexivity|]. split; [vm_compute; reflexivity|].
    eexists. vm_compute. reflexivity.
  - destruct (updateOrderStatus_override demo.env "order-7" "PAID" PAID
                dangling_order dangling_store)
      as (v & w' & Hrun & _ & Horders & Hsettle);
      [vm_compute; reflexivity | by right; left |].
    rewrite decide_True in Hsettle by (split; [done | discriminate]).
    destruct Hsettle as (Hstock & _ & Htrace).
    exists v, w'. split; [exact Hrun|]. rewrite Horders, !Hstock, Htrace.
    split; [vm_compute; reflexivity|]. split; [vm_compute; reflexivity|].
    split; vm_compute; reflexivity.
Defined.

(** ** The total of an order in explicit terms *)

(** For a quantity that is not negative, [Number.of_Z] is the machine
    conversion of the integer to binary64. *)
Lemma of_Z_nonneg z :
  0 ≤ z → Number.of_Z z = PrimFloat.of_uint63 (Uint63.of_Z z).
Proof. intros Hz. unfold Number.of_Z. apply Z.ltb_ge in Hz. by rewrite Hz. Qed.

Lemma items_total_explicit acc its :
  Forall (λ it, 0 ≤ quantity it) its →
  items_total acc its
  = foldl (λ acc it, PrimFloat.add acc
                       (PrimFloat.mul (item_price it)
                                      (PrimFloat.of_uint63 (Uint63.of_Z (quantity it)))))
          acc its.
Proof.
  intros Hall. revert acc. induction Hall as [|it its Hq _ IH]; intros acc; [done|].
  unfold items_total in *. simpl. by rewrite IH, (of_Z_nonneg _ Hq).
Qed.

(** C5: an order created (201) from items with positive quantities is
    stored under the new identifier in PENDING status.  Its items are the
    requested ones, each with the price its product had in the catalog at
    that moment.  Its total is the sum over its items, from left to right
    in binary64 arithmetic and starting from zero, of the captured price
    times the quantity as a binary64 number (the machine conversion of the
    integer, which is exact below 2^53).  Reading the order back after
    any later change of the products table returns the same row: items,
    prices and total are not affected by the catalog. *)
Theorem createOrder_total_of_captured_prices env body w resp w' :
  createOrder env body w = (resp, w') →
  res_status resp = 201 →
  (∀ req, req ∈ body_items body → 0 < req_quantity req) →
  ∃ o,
    orders w' = <[uuid env := o]> (orders w) ∧
    status o = PENDING ∧
    Forall2 (λ req it,
               productId it = req_productId req ∧
               quantity it = req_quantity req ∧
               ∃ p, products w !! req_productId req = Some p ∧ item_price it = price p)
            (body_items body) (items o) ∧
    totalAmount o
    = foldl (λ acc it, PrimFloat.add acc
                         (PrimFloat.mul (item_price it)
                                        (PrimFloat.of_uint63 (Uint63.of_Z (quantity it)))))
            PrimFloat.zero (items o) ∧
    ∀ ps' tr', ∃ v,
      getOrderById (uuid env) (mkWorld ps' (orders w') tr')
      = (mkResponse 200 true "Order fetched successfully" (DOrder v),
         mkWorld ps' (orders w') tr') ∧
      ov_order v = o.
Proof.
  intros Hrun Hcode Hpos.
  assert (res_status (createOrder env body w).1 = 201) as Hcode' by by rewrite Hrun.
  destruct (createOrder_created _ _ _ Hcode') as (data & Hw' & Hcap & _ & _).
  rewrite Hrun in Hw'. simpl in Hw'. subst w'. simpl.
  eexists. split; [reflexivity|]. simpl. split; [done|]. split; [exact Hcap|].
  split.
  - apply items_total_explicit.
    apply Forall_forall. intros it Hit.
    destruct (proj1 (list_elem_of_lookup _ _) Hit) as [i Hi].
    destruct (Forall2_lookup_r _ _ _ _ _ Hcap Hi) as (req & Hreq & _ & Hq & _).
    apply list_elem_of_lookup_2, Hpos in Hreq. lia.
  - intros ps' tr'. eexists.
    unfold getOrderById, getOrderById_body, try_handler, bind, prisma.order_findUnique.
    simpl. rewrite lookup_insert_eq. simpl. split; reflexivity.
Qed.

(** On the demo store: two units at 10 and one unit at 2.5 give an order
    of total 22.5 whose items carry those prices. *)
Lemma createOrder_total_of_captured_prices_witness :
  ∃ o,
    orders (createOrder demo.env (demo_body [("prod-a", 2); ("prod-b", 1)]) demo.store).2
    = <["order-3" := o]> (orders demo.store) ∧
    status o = PENDING ∧
    items o = [mkOrderItem "prod-a" 10%float 2; mkOrderItem "prod-b" 2.5%float 1] ∧
    totalAmount o = 22.5%float.
Proof.
  destruct (createOrder_total_of_captured_prices demo.env
              (demo_body [("prod-a", 2); ("prod-b", 1)]) demo.store
              (createOrder demo.env (demo_body [("prod-a", 2); ("prod-b", 1)]) demo.store).1
              (createOrder demo.env (demo_body [("prod-a", 2); ("prod-b", 1)]) demo.store).2)
    as (o & Horders & Hst & Hcap & Htotal & _).
  - apply surjective_pairing.
  - vm_compute; reflexivity.
  - intros req Hin.
    repeat (apply elem_of_cons in Hin as [->|Hin]; [simpl; lia|]).
    by apply elem_of_nil in Hin.
  - exists o. split; [exact Horders|]. split; [exact Hst|].
    assert (items o = [mkOrderItem "prod-a" 10%float 2; mkOrderItem "prod-b" 2.5%float 1])
      as Hitems.
    { simpl in Hcap.
      apply Forall2_cons_inv_l in Hcap as (i1 & r1 & (Hi1 & Hq1 & p1 & Hp1 & Hpr1) & Hcap & ->).
      apply Forall2_cons_inv_l in Hcap as (i2 & r2 & (Hi2 & Hq2 & p2 & Hp2 & Hpr2) & Hcap & ->).
      apply Forall2_nil_inv_l in Hcap as ->.
      vm_compute in Hp1, Hp2. injection Hp1 as <-. injection Hp2 as <-.
      destruct i1, i2. simpl in *. by subst. }
    split; [exact Hitems|]. rewrite Htotal, Hitems. vm_compute. reflexivity.
Defined.

(** ** The first item that exceeds the stock *)

(** The items before [req] are within the stock and [req] is not: the
    construction stops at [req] with its insufficient-stock error. *)
Lemma orderItemsData_first_short ps ids pre req post p acc :
  (∀ r, r ∈ pre →
     req_productId r ∈ ids ∧
     ∃ pr, ps !! req_productId r = Some pr ∧ req_quantity r ≤ stock pr) →
  req_productId req ∈ ids →
  ps !! req_productId req = Some p →
  stock p < req_quantity req →
  orderItemsData (prisma.rows_in ps ids) (pre ++ req :: post) acc
  = inl (AppError ("Insufficient stock for " +:+ name p
                   +:+ ". Available: " +:+ pretty (stock p)
                   +:+ ", Requested: " +:+ pretty (req_quantity req)) 400).
Proof.
  intros Hpre Hid Hp Hlt. revert acc.
  induction pre as [|r pre IH]; intros acc; simpl.
  - rewrite find_rows_in by done. rewrite Hp. simpl.
    apply Z.ltb_lt in Hlt. by rewrite Hlt.
  - destruct (Hpre r) as (Hrid & pr & Hpr & Hle); [left|].
    rewrite find_rows_in by done. rewrite Hpr. simpl.
    apply Z.ltb_ge in Hle. rewrite Hle.
    rewrite IH; [done|]. intros; apply Hpre; by right.
Qed.

(** A list with an item over the stock has a first such item. *)
Lemma first_over_stock (ps : gmap string Product) (reqs : list ItemRequest) :
  (∀ r, r ∈ reqs → is_Some (ps !! req_productId r)) →
  (∃ r p, r ∈ reqs ∧ ps !! req_productId r = Some p ∧ stock p < req_quantity r) →
  ∃ pre req post p,
    reqs = pre ++ req :: post ∧
    (∀ r, r ∈ pre → ∃ pr, ps !! req_productId r = Some pr ∧ req_quantity r ≤ stock pr) ∧
    ps !! req_productId req = Some p ∧ stock p < req_quantity req.
Proof.
  induction reqs as [|r reqs IH]; intros Hall (bad & pb & Hin & Hpb & Hlt).
  - by apply elem_of_nil in Hin.
  - destruct (Hall r) as [p Hp]; [left|].
    destruct (decide (stock p < req_quantity r)) as [Hover|Hok].
    + exists [], r, reqs, p. split; [done|]. split; [|done].
      intros x Hx. by apply elem_of_nil in Hx.
    + apply elem_of_cons in Hin as [->|Hin]; [congruence|].
      destruct IH as (pre & req & post & q & -> & Hpre & Hq & Hqlt).
      * intros; apply Hall; by right.
      * eauto 6.
      * exists (r :: pre), req, post, q. split; [done|]. split; [|done].
        intros x [->|Hx]%elem_of_cons; [|by apply Hpre].
        exists p. split; [done|]. lia.
Qed.

(** C7 as amended: when the requested products are pairwise distinct and
    all exist, and some item asks for more than the recorded stock of its
    product, then the request is answered with 400 and the message
    "Insufficient stock for <name>. Available: <stock>, Requested:
    <quantity>" of the first such item in the list (every item before it
    is within the stock of its product); the products and the orders are
    as before, so no order and no item is stored, and the log has one more
    error entry. *)
Theorem createOrder_insufficient_stock env body w :
  NoDup (map req_productId (body_items body)) →
  (∀ req, req ∈ body_items body → is_Some (products w !! req_productId req)) →
  (∃ req p, req ∈ body_items body ∧ products w !! req_productId req = Some p ∧
            stock p < req_quantity req) →
  ∃ pre req post p,
    body_items body = pre ++ req :: post ∧
    (∀ r, r ∈ pre →
       ∃ pr, products w !! req_productId r = Some pr ∧ req_quantity r ≤ stock pr) ∧
    products w !! req_productId req = Some p ∧
    stock p < req_quantity req ∧
    createOrder env body w
    = (mkResponse 400 false
                  ("Insufficient stock for " +:+ name p
                   +:+ ". Available: " +:+ pretty (stock p)
                   +:+ ", Requested: " +:+ pretty (req_quantity req))
                  DNone,
       mkWorld (products w) (orders w) (trace w ++ [Log LError "Error in createOrder"])).
Proof.
  intros Hnd Hall Hbad.
  destruct (first_over_stock _ _ Hall Hbad) as (pre & req & post & p & Hsplit & Hpre & Hp & Hlt).
  exists pre, req, post, p. split; [done|]. split; [done|]. split; [done|]. split; [done|].
  rewrite createOrder_after_lookup.
  2:{ apply rows_in_length_all; [done|].
      intros id (r & -> & Hin)%list_elem_of_fmap. by apply Hall. }
  unfold try_handler.
  assert (orderItemsData
            (prisma.rows_in (products w) (map req_productId (body_items body)))
            (body_items body) PrimFloat.zero
          = inl (AppError ("Insufficient stock for " +:+ name p
                           +:+ ". Available: " +:+ pretty (stock p)
                           +:+ ", Requested: " +:+ pretty (req_quantity req)) 400))
    as ->; [|done].
  pose proof (req_ids_elem (body_items body)) as Hids.
  set (ids := map req_productId (body_items body)) in *. clearbody ids.
  rewrite Hsplit in *.
  apply orderItemsData_first_short; [| |done|done].
  - intros r Hr. split; [|by apply Hpre]. apply Hids, elem_of_app. by left.
  - apply Hids, elem_of_app. right. by left.
Qed.

(** On the demo store, with both items over the stock: the answer names
    the first of the two. *)
Lemma createOrder_insufficient_stock_witness :
  (∃ pre req post p,
     body_items (demo_body [("prod-a", 6); ("prod-b", 3)]) = pre ++ req :: post ∧
     (∀ r, r ∈ pre →
        ∃ pr, products demo.store !! req_productId r = Some pr ∧ req_quantity r ≤ stock pr) ∧
     products demo.store !! req_productId req = Some p ∧
     stock p < req_quantity req ∧
     createOrder demo.env (demo_body [("prod-a", 6); ("prod-b", 3)]) demo.store
     = (mkResponse 400 false
                   ("Insufficient stock for " +:+ name p
                    +:+ ". Available: " +:+ pretty (stock p)
                    +:+ ", Requested: " +:+ pretty (req_quantity req))
                   DNone,
        mkWorld (products demo.store) (orders demo.store)
                (trace demo.store ++ [Log LError "Error in createOrder"]))) ∧
  createOrder demo.env (demo_body [("prod-a", 6); ("prod-b", 3)]) demo.store
  = (mkResponse 400 false "Insufficient stock for Widget. Available: 5, Requested: 6" DNone,
     mkWorld (products demo.store) (orders demo.store) [Log LError "Error in createOrder"]).
Proof.
  split; [|vm_compute; reflexivity].
  apply (createOrder_insufficient_stock demo.env
           (demo_body [("prod-a", 6); ("prod-b", 3)]) demo.store).
  - apply (bool_decide_unpack _). by vm_compute.
  - intros req Hin.
    repeat (apply elem_of_cons in Hin as [->|Hin]; [eexists; vm_compute; reflexivity|]).
    by apply elem_of_nil in Hin.
  - exists (mkItemRequest "prod-b" 3), demo.gadget.
    split; [by right; left|]. split; [by vm_compute|]. simpl. lia.
Defined.

(** ** The amount of a payment intent in explicit terms *)

(** The integer [n] as a binary64 number, by the machine conversion;
    [neg] is the sign given to a zero. *)
Definition integer_as_double (neg : bool) (n : Z) : float :=
  if 0 <? n then PrimFloat.of_uint63 (Uint63.of_Z n)
  else if n <? 0 then PrimFloat.opp (PrimFloat.of_uint63 (Uint63.of_Z (- n)))
  else if neg then PrimFloat.opp PrimFloat.zero else PrimFloat.zero.

(** [a] is the binary64 number [x] rounded to the nearest integer, a tie
    going to the larger one: for [x = ±m·2^e] with a fractional part
    ([e < 0]) it is the integer [n] with [n ≤ x + 1/2 < n + 1] (the
    inequalities are multiplied by [2^(1-e)]); any other [x] (an integer,
    a zero, an infinity, not a number) is left as it is. *)
Definition rounds_half_up (x a : float) : Prop :=
  match Prim2SF x with
  | S754_finite neg m e =>
      if e <? 0 then
        ∃ n : Z,
          n * 2 ^ (1 - e) ≤ 2 * (if neg then - Z.pos m else Z.pos m) + 2 ^ (- e)
            < (n + 1) * 2 ^ (1 - e) ∧
          a = integer_as_double neg n
      else a = x
  | _ => a = x
  end.

(** [n] is an integer nearest to the exact product of the binary64 number
    [total] and 100: [|n - 100·total| ≤ 1/2]. *)
Definition nearest_to_exact_cents (total : float) (n : Z) : Prop :=
  match Prim2SF total with
  | S754_zero _ => n = 0
  | S754_finite neg m e =>
      let v := 100 * (if neg then - Z.pos m else Z.pos m) in
      if e <? 0 then 2 * Z.abs (n * 2 ^ (- e) - v) ≤ 2 ^ (- e) else n = v * 2 ^ e
  | _ => False
  end.

Lemma Math_round_rounds_half_up x : rounds_half_up x (Number.Math_round x).
Proof.
  unfold rounds_half_up, Number.Math_round.
  destruct (Prim2SF x) as [| | |neg m e]; try done.
  destruct (e <? 0) eqn:He.
  - apply Z.ltb_lt in He.
    assert ((0 <=? e) = false) as -> by (apply Z.leb_gt; lia).
    exists (Number.round_half_up neg m e). split.
    + pose proof (round_half_up_floor neg m e He) as H. simpl in H.
      assert (2 ^ (1 - e) = 2 * 2 ^ (- e)) as ->; [|lia].
      replace (1 - e) with (Z.succ (- e)) by lia. by rewrite Z.pow_succ_r by lia.
    + unfold integer_as_double, Number.of_Z.
      destruct (Z.eqb_spec (Number.round_half_up neg m e) 0) as [->|Hn]; [done|].
      destruct (Z.ltb_spec 0 (Number.round_half_up neg m e)) as [Hpos|Hnpos].
      * assert ((Number.round_half_up neg m e <? 0) = false) as -> by (apply Z.ltb_ge; lia).
        done.
      * assert ((Number.round_half_up neg m e <? 0) = true) as -> by (apply Z.ltb_lt; lia).
        done.
  - apply Z.ltb_ge in He. by assert ((0 <=? e) = true) as -> by (apply Z.leb_le; lia).
Qed.

(** C6 as amended: issuing a payment intent answers 404 for an unknown
    order and 400 for an order that is not PENDING, in both cases leaving
    the tables as they are.  For a PENDING order the processor is asked
    for an amount that is the binary64 product of the total and 100,
    rounded to the nearest integer with a tie going up, in usd, with the
    order identifier and the customer email as metadata; when it returns
    an intent, the order is stored with that intent identifier and
    otherwise unchanged, and the 200 answer carries the client secret. *)
Theorem createPaymentIntent_contract env id w :
  (orders w !! id = None →
   createPaymentIntent env id w
   = (mkResponse 404 false "Order not found" DNone,
      mkWorld (products w) (orders w)
              (trace w ++ [Log LError "Error in createPaymentIntent"]))) ∧
  (∀ o, orders w !! id = Some o → status o ≠ PENDING →
   createPaymentIntent env id w
   = (mkResponse 400 false "Order is not in pending status" DNone,
      mkWorld (products w) (orders w)
              (trace w ++ [Log LError "Error in createPaymentIntent"]))) ∧
  (∀ o, orders w !! id = Some o → status o = PENDING →
   ∃ params,
     rounds_half_up (PrimFloat.mul (totalAmount o) 100%float) (amount params) ∧
     currency params = "usd" ∧
     meta_orderId params = id ∧
     meta_customerEmail params = customerEmail o ∧
     ∀ intent, paymentIntents_create env params = inr intent →
       ∃ v, createPaymentIntent env id w
            = (mkResponse 200 true "Payment intent created successfully"
                          (DPayment v (client_secret intent)),
               mkWorld (products w)
                       (<[id := mkOrder (customerEmail o) (totalAmount o) (status o)
                                        (Some (intent_id intent)) (items o)]> (orders w))
                       (trace w ++ [StripeCreate params])) ∧
            ov_id v = id ∧
            ov_order v = mkOrder (customerEmail o) (totalAmount o) (status o)
                                 (Some (intent_id intent)) (items o)).
Proof.
  split; [|split].
  - intros Hnone.
    unfold createPaymentIntent, createPaymentIntent_body, try_handler.
    unfold bind at 1. unfold prisma.order_findUnique at 1. cbv beta.
    by rewrite Hnone.
  - intros o Ho Hst.
    unfold createPaymentIntent, createPaymentIntent_body, try_handler.
    unfold bind at 1. unfold prisma.order_findUnique at 1. cbv beta.
    rewrite Ho. simpl. by rewrite bool_decide_eq_false_2.
  - intros o Ho Hst. exists (intent_params id o).
    split; [apply Math_round_rounds_half_up|]. split; [done|]. split; [done|].
    split; [done|]. intros intent Hintent.
    unfold createPaymentIntent, createPaymentIntent_body, try_handler.
    unfold bind at 1. unfold prisma.order_findUnique at 1. cbv beta.
    rewrite Ho. simpl. rewrite bool_decide_eq_true_2 by done. simpl.
    fold (intent_params id o). step_effects. rewrite Hintent.
    unfold prisma.order_update. simpl. rewrite Ho. simpl.
    eexists. split; [reflexivity|]. done.
Qed.

(** On the demo store: an unknown order, a paid order, and the pending
    order of total 20, for which 2000 is requested and the intent [pi_1]
    is stored. *)
Lemma createPaymentIntent_contract_witness :
  createPaymentIntent demo.env "order-9" demo.store
  = (mkResponse 404 false "Order not found" DNone,
     mkWorld (products demo.store) (orders demo.store)
             (trace demo.store ++ [Log LError "Error in createPaymentIntent"])) ∧
  createPaymentIntent demo.env "order-2" demo.store
  = (mkResponse 400 false "Order is not in pending status" DNone,
     mkWorld (products demo.store) (orders demo.store)
             (trace demo.store ++ [Log LError "Error in createPaymentIntent"])) ∧
  ∃ params v,
    amount params = 2000%float ∧
    currency params = "usd" ∧
    meta_orderId params = "order-1" ∧
    meta_customerEmail params = "buyer@example.com" ∧
    createPaymentIntent demo.env "order-1" demo.store
    = (mkResponse 200 true "Payment intent created successfully" (DPayment v "pi_1_secret"),
       mkWorld (products demo.store)
               (<["order-1" := mkOrder "buyer@example.com" 20%float PENDING (Some "pi_1")
                                       [mkOrderItem "prod-a" 10%float 2]]> (orders demo.store))
               [StripeCreate params]).
Proof.
  split; [|split].
  - apply (proj1 (createPaymentIntent_contract demo.env "order-9" demo.store)).
    vm_compute; reflexivity.
  - apply (proj1 (proj2 (createPaymentIntent_contract demo.env "order-2" demo.store))
             demo.paid_order);
      [vm_compute; reflexivity | discriminate].
  - destruct (proj2 (proj2 (createPaymentIntent_contract demo.env "order-1" demo.store))
                demo.pending_order)
      as (params & Hround & Hcur & Hid & Hmail & Hrun);
      [vm_compute; reflexivity | reflexivity |].
    destruct (Hrun (mkIntent "pi_1" "pi_1_secret") eq_refl) as (v & Hv & _).
    exists params, v. split; [|done].
    unfold rounds_half_up in Hround.
    assert (Prim2SF (totalAmount demo.pending_order * 100)%float
            = S754_finite false 8796093022208000 (-42)) as Hx by (vm_compute; reflexivity).
    rewrite Hx in Hround. cbn [Z.ltb Z.compare] in Hround.
    destruct Hround as (n & H & ->).
    change (1 - -42) with 43 in H. change (- -42) with 42 in H.
    change (2 ^ 43) with 8796093022208 in H. change (2 ^ 42) with 4398046511104 in H.
    assert (n = 2000) as -> by lia. reflexivity.
Defined.

(** A catalog with one product priced 1.115 (the nearest binary64 number,
    which lies a little below), and the configuration under which the
    next order is ["order-8"]. *)
Definition sticker_store : World :=
  mkWorld {["prod-c" := mkProduct "Sticker" None 0x1.1d70a3d70a3d7p+0%float None 5 None]} ∅ [].

Definition sticker_env : Env :=
  mkEnv "whsec_test" demo.construct (λ _, inr (mkIntent "pi_8" "pi_8_secret"))
        (λ _, None) "order-8".

(** C6 as stated fails: one unit of a product priced 1.115 is ordered and
    a payment intent is issued for the order.  The exact product of the
    stored total and 100 is 111.4999..., whose nearest integer is 111; the
    amount requested from the processor is 112, because the binary64
    product is 111.5 and the tie goes up. *)
Lemma createPaymentIntent_amount_counterexample :
  ∃ o params,
    orders (perform_all [(sticker_env, CreateOrder (demo_body [("prod-c", 1)]))]
                        sticker_store) !! "order-8" = Some o ∧
    status o = PENDING ∧
    trace (perform_all [(sticker_env, CreateOrder (demo_body [("prod-c", 1)]));
                        (sticker_env, CreatePaymentIntent "order-8")]
                       sticker_store) = [StripeCreate params] ∧
    amount params = 112%float ∧
    nearest_to_exact_cents (totalAmount o) 111 ∧
    ¬ nearest_to_exact_cents (totalAmount o) 112.
Proof.
  eexists _, _. split; [vm_compute; reflexivity|]. split; [reflexivity|].
  split; [vm_compute; reflexivity|]. split; [reflexivity|].
  unfold nearest_to_exact_cents. cbn [totalAmount].
  assert (Prim2SF 0x1.1d70a3d70a3d7p+0%float
          = S754_finite false 5021513584518103 (-52)) as -> by (vm_compute; reflexivity).
  cbn [Z.ltb Z.compare]. change (- -52) with 52. change (2 ^ 52) with 4503599627370496.
  cbv zeta. split; lia.
Qed.
